(** * USB CDC-ACM <-> BLE UART bridge: a shallow embedding of [main/main.c]

    The program relays lines between a USB CDC-ACM radio and the Nordic UART
    BLE service.  Three pieces of [main.c] are embedded here:

    - [handle_rx], the USB receive callback (wired -> wireless);
    - [echoTask], the ring-buffer pump (wireless -> wired);
    - [handle_event] and the body of the [while (true)] loop of [app_main],
      the device life cycle.

    The two [static char mbuf[...]] arrays are lists of bytes of a fixed
    length; every access outside an array is undefined behaviour in C and is
    a [Fault] here.  Calls into ESP-IDF, FreeRTOS and the BLE library are
    recorded, in program order, in a trace of [event]s; what those calls
    return is an argument of the embedded function. *)

From Stdlib Require Import ZArith Strings.Byte.
From stdpp Require Import base decidable option numbers list gmap strings.

Local Open Scope Z_scope.

(** ** Bytes and C strings *)

#[global] Instance byte_eq_decision : EqDecision byte := byte_eq_dec.

Definition NUL : byte := x00.   (* '\0' *)
Definition CR : byte := x0d.    (* '\r' *)
Definition LF : byte := x0a.    (* '\n' *)

(** The bytes in front of the first ['\0'] of [buf] (all of [buf] when it
    has none). *)
Fixpoint c_str (buf : list byte) : list byte :=
  match buf with
  | [] => []
  | b :: rest => if decide (b = NUL) then [] else b :: c_str rest
  end.

(** [strlen]: defined only when a terminator lies inside the object. *)
Definition strlen (buf : list byte) : option nat :=
  if decide (NUL ∈ buf) then Some (length (c_str buf)) else None.

(** What a [char *] argument denotes for a callee that reads a string. *)
Definition read_string (buf : list byte) : option (list byte) :=
  if decide (NUL ∈ buf) then Some (c_str buf) else None.

(** ** [size_t] and array accesses *)

Definition SIZE_WIDTH : Z := 32.   (* size_t of the 32-bit target *)
Definition size_t_wrap (z : Z) : Z := z mod 2 ^ SIZE_WIDTH.
Definition size_t_sub (a b : Z) : Z := size_t_wrap (a - b).

(** [buf[i]] as an rvalue. *)
Definition buf_get (buf : list byte) (i : Z) : option byte :=
  if decide (0 ≤ i < Z.of_nat (length buf)) then buf !! Z.to_nat i else None.

(** [buf[i] = b]. *)
Definition buf_set (buf : list byte) (i : Z) (b : byte) : option (list byte) :=
  if decide (0 ≤ i < Z.of_nat (length buf)) then Some (<[Z.to_nat i := b]> buf) else None.

(** [strncpy(dst, src, n)]: copies bytes of [src] up to its first ['\0'] or
    up to [n] of them, and fills what is left of the [n] bytes with ['\0'].
    It writes exactly [n] bytes, so [n] must fit in [dst]; [src] is a span of
    [length src] bytes and is read up to its first ['\0'] or up to [n]
    bytes, which must not lead past its end. *)
Definition strncpy (dst src : list byte) (n : Z) : option (list byte) :=
  if decide (0 ≤ n ≤ Z.of_nat (length dst)
             ∧ (n ≤ Z.of_nat (length src) ∨ NUL ∈ src)) then
    let k := Z.to_nat n in
    let copied := c_str (take k src) in
    Some (copied ++ replicate (k - length copied)%nat NUL ++ drop k dst)
  else None.

(** ** External interfaces *)

Definition esp_err_t : Type := Z.
Definition ESP_OK : esp_err_t := 0.

(** [cdc_acm_dev_hdl_t] is an opaque pointer; [None] is [NULL]. *)
Definition handle : Type := positive.
Definition cdc_acm_dev_hdl_t : Type := option handle.

Definition USB_HOST_PRIORITY : Z := 20.
Definition MD9600_USB_DEVICE_VID : Z := 0x1FC9.
Definition MD9600_USB_DEVICE_PID : Z := 0x0094.
Definition USB_TX_TIMEOUT_MS : Z := 1000.

Record cdc_acm_line_coding_t : Type := mk_line_coding {
  dwDTERate : Z;
  bCharFormat : Z;
  bParityType : Z;
  bDataBits : Z
}.

#[global] Instance line_coding_eq_decision : EqDecision cdc_acm_line_coding_t.
Proof. solve_decision. Defined.

Inductive cdc_acm_host_dev_event_data_t : Type :=
| CDC_ACM_HOST_ERROR (error : Z)
| CDC_ACM_HOST_SERIAL_STATE (serial_state : Z)
| CDC_ACM_HOST_NETWORK_CONNECTION (network_connected : bool)
| CDC_ACM_HOST_DEVICE_DISCONNECTED (cdc_hdl : handle).

Inductive log_level : Type := LOG_ERROR | LOG_WARN | LOG_INFO.

#[global] Instance log_level_eq_decision : EqDecision log_level.
Proof. solve_decision. Defined.

(** One entry per call that leaves [main.c].  A call that returns a status
    carries the status it returned. *)
Inductive event : Type :=
| EvLog (lvl : log_level) (tag : string) (text : string)
| EvLogStr (lvl : log_level) (tag : string) (line : list byte)
| EvLogLineCoding (lc : cdc_acm_line_coding_t)
| EvNordicUartSend (line : list byte) (ret : esp_err_t)
| EvRingbufferReceive (item : option (list byte))
| EvRingbufferReturnItem
| EvDataTxBlocking (hdl : cdc_acm_dev_hdl_t) (bytes : list byte)
    (timeout_ms : Z) (ret : esp_err_t)
| EvOpen (vid pid : Z) (hdl : cdc_acm_dev_hdl_t) (ret : esp_err_t)
| EvClose (hdl : handle) (ret : esp_err_t)
| EvLineCodingGet (hdl : cdc_acm_dev_hdl_t) (ret : esp_err_t)
| EvLineCodingSet (hdl : cdc_acm_dev_hdl_t) (lc : cdc_acm_line_coding_t)
    (ret : esp_err_t)
| EvSetControlLineState (hdl : cdc_acm_dev_hdl_t) (dtr rts : bool)
    (ret : esp_err_t)
| EvTaskDelay (ms : Z)
| EvSemaphoreGive
| EvSemaphoreTake
| EvAbort.

#[global] Instance event_eq_decision : EqDecision event.
Proof. solve_decision. Defined.

(** The objects owned by the libraries: the binary semaphore
    [device_disconnected_sem] and the set of device handles the CDC-ACM
    driver currently has open. *)
Record world : Type := mk_world {
  device_disconnected_sem : bool;
  open_devices : gset handle
}.

(** How a call changes the objects the libraries own. *)
Definition apply_event (e : event) (w : world) : world :=
  match e with
  | EvSemaphoreGive => mk_world true (open_devices w)
  | EvSemaphoreTake => mk_world false (open_devices w)
  | EvOpen _ _ (Some h) ret =>
      if decide (ret = ESP_OK)
      then mk_world (device_disconnected_sem w) ({[h]} ∪ open_devices w)
      else w
  | EvClose h ret =>
      if decide (ret = ESP_OK)
      then mk_world (device_disconnected_sem w) (open_devices w ∖ {[h]})
      else w
  | _ => w
  end.

Definition replay (evs : list event) (w : world) : world :=
  foldl (λ w e, apply_event e w) w evs.

(** ** Program state *)

Record state : Type := mk_state {
  rx_mbuf : list byte;          (* [mbuf] of [handle_rx] *)
  echo_mbuf : list byte;        (* [mbuf] of [echoTask] *)
  cdc_dev : cdc_acm_dev_hdl_t;  (* the global [cdc_dev] *)
  env : world;
  trace : list event
}.

Inductive outcome (A : Type) : Type :=
| Done (a : A) (s : state)   (* ran to the end *)
| Fault (s : state)          (* undefined behaviour reached in state [s] *)
| Aborted (s : state).       (* [abort()] *)
Arguments Done {A} a s.
Arguments Fault {A} s.
Arguments Aborted {A} s.

Definition M (A : Type) : Type := state → outcome A.

#[global] Instance M_ret : MRet M := λ A a s, Done a s.

#[global] Instance M_bind : MBind M := λ A B k m s,
  match m s with
  | Done a s' => k a s'
  | Fault s' => Fault s'
  | Aborted s' => Aborted s'
  end.

(** A call into a library: recorded, and applied to the library objects. *)
Definition emit (e : event) : M unit := λ s,
  Done tt (mk_state (rx_mbuf s) (echo_mbuf s) (cdc_dev s)
             (apply_event e (env s)) (trace s ++ [e])).

Definition abort {A} : M A := λ s,
  Aborted (mk_state (rx_mbuf s) (echo_mbuf s) (cdc_dev s)
             (env s) (trace s ++ [EvAbort])).

(** An access that is defined only inside the object. *)
Definition checked {A} (o : option A) : M A := λ s,
  match o with
  | Some a => Done a s
  | None => Fault s
  end.

Definition get_rx_mbuf : M (list byte) := λ s, Done (rx_mbuf s) s.
Definition set_rx_mbuf (m : list byte) : M unit := λ s,
  Done tt (mk_state m (echo_mbuf s) (cdc_dev s) (env s) (trace s)).
Definition get_echo_mbuf : M (list byte) := λ s, Done (echo_mbuf s) s.
Definition set_echo_mbuf (m : list byte) : M unit := λ s,
  Done tt (mk_state (rx_mbuf s) m (cdc_dev s) (env s) (trace s)).
Definition get_cdc_dev : M cdc_acm_dev_hdl_t := λ s, Done (cdc_dev s) s.
Definition set_cdc_dev (h : cdc_acm_dev_hdl_t) : M unit := λ s,
  Done tt (mk_state (rx_mbuf s) (echo_mbuf s) h (env s) (trace s)).

Definition ESP_LOGE (tag text : string) : M unit := emit (EvLog LOG_ERROR tag text).
Definition ESP_LOGW (tag text : string) : M unit := emit (EvLog LOG_WARN tag text).
Definition ESP_LOGI (tag text : string) : M unit := emit (EvLog LOG_INFO tag text).

(** Modelled from the spec: [ESP_ERROR_CHECK] is an ESP-IDF macro whose
    definition is not among the sources.  The spec (4.5, 7) says the
    reference aborts the whole process when a checked call reports an error;
    a call that reports [ESP_OK] goes on. *)
Definition ESP_ERROR_CHECK (err : esp_err_t) : M unit :=
  if decide (err = ESP_OK) then mret tt else abort.

Definition TAG : string := "DMR-RADIO".

(** ** [handle_rx]: data received callback (wired -> wireless)

    [data] is the span [data[0 .. data_len)], so [data_len] is its length.
    [send_ret] is what [nordic_uart_send] returns.  The callback always
    returns [true]. *)
Definition handle_rx (send_ret : esp_err_t) (data : list byte) : M bool :=
  let data_len : Z := Z.of_nat (length data) in
  (* strncpy(mbuf, data, data_len); *)
  mbuf ← get_rx_mbuf;
  mbuf ← checked (strncpy mbuf data data_len);
  set_rx_mbuf mbuf;;
  (* mbuf[data_len] = '\0'; *)
  mbuf ← checked (buf_set mbuf data_len NUL);
  set_rx_mbuf mbuf;;
  (* esp_err_t err = nordic_uart_send(mbuf); *)
  line ← checked (read_string mbuf);
  emit (EvNordicUartSend line send_ret);;
  (if decide (ESP_OK ≠ send_ret)
   then ESP_LOGW "UART->BLE" "Failed to sent to BLE UART"
   else mret tt);;
  (* if (mbuf[data_len - 2] == '\r') mbuf[data_len - 2] = '\0'; *)
  c ← checked (buf_get mbuf (size_t_sub data_len 2));
  (if decide (c = CR)
   then mbuf ← checked (buf_set mbuf (size_t_sub data_len 2) NUL);
        set_rx_mbuf mbuf
   else mret tt);;
  (* ESP_LOGI("UART->BLE", "%s", mbuf); *)
  mbuf ← get_rx_mbuf;
  line ← checked (read_string mbuf);
  emit (EvLogStr LOG_INFO "UART->BLE" line);;
  mret true.

(** ** [echoTask]: the ring-buffer pump (wireless -> wired)

    What the surroundings answer during one turn of the [for (;;)] loop. *)
Record echo_env : Type := mk_echo_env {
  (* [nordic_uart_rx_buf_handle] is not [NULL] *)
  nordic_uart_rx_buf_handle : bool;
  (* the item [xRingbufferReceive] returns; [item_size] is its length *)
  ringbuffer_item : option (list byte);
  (* what [cdc_acm_host_data_tx_blocking] returns *)
  tx_ret : esp_err_t
}.

(** One turn of the loop. *)
Definition echoTask_body (e : echo_env) : M unit :=
  if nordic_uart_rx_buf_handle e then
    emit (EvRingbufferReceive (ringbuffer_item e));;
    match ringbuffer_item e with
    | Some item =>
        let item_size : Z := Z.of_nat (length item) in
        (* strncpy(mbuf, item, item_size); *)
        mbuf ← get_echo_mbuf;
        mbuf ← checked (strncpy mbuf item item_size);
        set_echo_mbuf mbuf;;
        (* mbuf[item_size] = '\0'; *)
        mbuf ← checked (buf_set mbuf item_size NUL);
        set_echo_mbuf mbuf;;
        (* ESP_LOGI("BLE->UART", "%s", mbuf); *)
        line ← checked (read_string mbuf);
        emit (EvLogStr LOG_INFO "BLE->UART" line);;
        (* cdc_acm_host_data_tx_blocking(cdc_dev, mbuf, strlen(mbuf), USB_TX_TIMEOUT_MS) *)
        hdl ← get_cdc_dev;
        len ← checked (strlen mbuf);
        emit (EvDataTxBlocking hdl (take len mbuf) USB_TX_TIMEOUT_MS (tx_ret e));;
        (if decide (ESP_OK ≠ tx_ret e)
         then ESP_LOGW "BLE->UART" "Failed send to USB UART"
         else mret tt);;
        (* vRingbufferReturnItem(nordic_uart_rx_buf_handle, item); *)
        emit EvRingbufferReturnItem
    | None => mret tt
    end
  else
    (* vTaskDelay(1000 / portTICK_PERIOD_MS); *)
    emit (EvTaskDelay 1000).

(** The loop has no [break]: it runs one turn per answer of the
    surroundings, for as long as there are answers. *)
Fixpoint echoTask (envs : list echo_env) : M unit :=
  match envs with
  | [] => mret tt
  | e :: rest => echoTask_body e;; echoTask rest
  end.

(** ** [handle_event]: device event callback

    [close_ret] is what [cdc_acm_host_close] returns. *)
Definition handle_event (event : cdc_acm_host_dev_event_data_t)
    (close_ret : esp_err_t) : M unit :=
  match event with
  | CDC_ACM_HOST_ERROR _ =>
      ESP_LOGE TAG "CDC-ACM error has occurred, err_no = %i"
  | CDC_ACM_HOST_DEVICE_DISCONNECTED cdc_hdl =>
      ESP_LOGI TAG "Device suddenly disconnected";;
      emit (EvClose cdc_hdl close_ret);;
      ESP_ERROR_CHECK close_ret;;
      emit EvSemaphoreGive
  | CDC_ACM_HOST_SERIAL_STATE _ =>
      ESP_LOGI TAG "Serial state notif 0x%04X"
  | CDC_ACM_HOST_NETWORK_CONNECTION _ =>
      ESP_LOGW TAG "Unsupported CDC event: %i"
  end.

(** ** [app_main]: the device life cycle

    What the CDC-ACM driver answers during one turn of [while (true)]. *)
Record session_env : Type := mk_session_env {
  open_ret : esp_err_t;            (* [cdc_acm_host_open] *)
  open_hdl : cdc_acm_dev_hdl_t;    (* what it stores through [&cdc_dev] *)
  get1_ret : esp_err_t;            (* first [cdc_acm_host_line_coding_get] *)
  get1_line_coding : cdc_acm_line_coding_t;
  set_ret : esp_err_t;             (* [cdc_acm_host_line_coding_set] *)
  get2_ret : esp_err_t;            (* second [cdc_acm_host_line_coding_get] *)
  get2_line_coding : cdc_acm_line_coding_t;
  ctl_ret : esp_err_t              (* [cdc_acm_host_set_control_line_state] *)
}.

(** Where a turn of the loop leaves the life cycle: back at the top of the
    loop with no device ([Idle]), or inside
    [xSemaphoreTake(device_disconnected_sem, portMAX_DELAY)] with a
    configured device ([Connected]). *)
Inductive lifecycle : Type := Idle | Connected.

#[global] Instance lifecycle_eq_decision : EqDecision lifecycle.
Proof. solve_decision. Defined.

Definition app_main_loop_body (e : session_env) : M lifecycle :=
  ESP_LOGI TAG "Opening CDC ACM device 0x%04X:0x%04X...";;
  (* err = cdc_acm_host_open(VID, PID, 0, &dev_config, &cdc_dev); *)
  emit (EvOpen MD9600_USB_DEVICE_VID MD9600_USB_DEVICE_PID (open_hdl e) (open_ret e));;
  set_cdc_dev (open_hdl e);;
  if decide (ESP_OK ≠ open_ret e) then
    ESP_LOGI TAG "Failed to open device";;
    mret Idle                                   (* continue; *)
  else
    emit (EvTaskDelay 100);;
    ESP_LOGI TAG "Setting up line coding";;
    (* ESP_ERROR_CHECK(cdc_acm_host_line_coding_get(cdc_dev, &line_coding)); *)
    hdl ← get_cdc_dev;
    emit (EvLineCodingGet hdl (get1_ret e));;
    ESP_ERROR_CHECK (get1_ret e);;
    let line_coding := get1_line_coding e in
    let line_coding :=    (* line_coding.dwDTERate = 115200; *)
      mk_line_coding 115200 (bCharFormat line_coding)
        (bParityType line_coding) (bDataBits line_coding) in
    let line_coding :=    (* line_coding.bDataBits = 8; *)
      mk_line_coding (dwDTERate line_coding) (bCharFormat line_coding)
        (bParityType line_coding) 8 in
    let line_coding :=    (* line_coding.bParityType = 0; *)
      mk_line_coding (dwDTERate line_coding) (bCharFormat line_coding)
        0 (bDataBits line_coding) in
    let line_coding :=    (* line_coding.bCharFormat = 1; *)
      mk_line_coding (dwDTERate line_coding) 1
        (bParityType line_coding) (bDataBits line_coding) in
    (* ESP_ERROR_CHECK(cdc_acm_host_line_coding_set(cdc_dev, &line_coding)); *)
    hdl ← get_cdc_dev;
    emit (EvLineCodingSet hdl line_coding (set_ret e));;
    ESP_ERROR_CHECK (set_ret e);;
    (* ESP_ERROR_CHECK(cdc_acm_host_line_coding_get(cdc_dev, &line_coding)); *)
    hdl ← get_cdc_dev;
    emit (EvLineCodingGet hdl (get2_ret e));;
    ESP_ERROR_CHECK (get2_ret e);;
    let line_coding := get2_line_coding e in
    emit (EvLogLineCoding line_coding);;
    (* ESP_ERROR_CHECK(cdc_acm_host_set_control_line_state(cdc_dev, true, false)); *)
    hdl ← get_cdc_dev;
    emit (EvSetControlLineState hdl true false (ctl_ret e));;
    ESP_ERROR_CHECK (ctl_ret e);;
    ESP_LOGI TAG "Connected CDC ACM device 0x%04X:0x%04X...";;
    (* xSemaphoreTake(device_disconnected_sem, portMAX_DELAY); *)
    mret Connected.

(** [xSemaphoreTake] returning: it empties the semaphore and the loop goes
    back to its top; while the semaphore is empty the task stays inside the
    call. *)
Definition app_main_wake : M lifecycle := λ s,
  if device_disconnected_sem (env s)
  then (emit EvSemaphoreTake;; mret Idle) s
  else Done Connected s.

(** The loop, one turn per answer of the driver, up to the first turn that
    blocks. *)
Fixpoint app_main_loop (envs : list session_env) : M lifecycle :=
  match envs with
  | [] => mret Idle
  | e :: rest =>
      st ← app_main_loop_body e;
      match st with
      | Idle => app_main_loop rest
      | Connected => mret Connected
      end
  end.

(** ** Initial state *)

Section Capacity.

(** The Kconfig value that sizes both line buffers. *)
Variable CONFIG_NORDIC_UART_MAX_LINE_LENGTH : nat.

(** [sizeof mbuf] *)
Definition capacity : nat := CONFIG_NORDIC_UART_MAX_LINE_LENGTH + 1.

(** Static storage starts zeroed, [cdc_dev] is [NULL], the binary
    semaphore is created empty and the driver has no device open. *)
Definition initial_state : state :=
  mk_state (replicate capacity NUL) (replicate capacity NUL) None
    (mk_world false ∅) [].

(** No object is larger than [PTRDIFF_MAX] bytes. *)
Definition object_size_ok (n : nat) : Prop :=
  Z.of_nat n < 2 ^ (SIZE_WIDTH - 1).

(** Both arrays keep their declared size. *)
Definition wf_state (s : state) : Prop :=
  length (rx_mbuf s) = capacity ∧ length (echo_mbuf s) = capacity
  ∧ object_size_ok capacity.

End Capacity.

Definition bytes (s : string) : list byte := String.list_byte_of_string s.

(** The state an execution stopped in, however it stopped. *)
Definition outcome_state {A} (o : outcome A) : state :=
  match o with
  | Done _ s => s
  | Fault s => s
  | Aborted s => s
  end.

(** What lines 45-46 of [handle_rx] (and 129-130 of [echoTask]) leave in a
    buffer [dst] that is large enough for the chunk [data]. *)
Definition padded (data : list byte) : list byte :=
  c_str data ++ replicate (length data - length (c_str data))%nat NUL.

Definition filled (dst data : list byte) : list byte :=
  padded data ++ NUL :: drop (S (length data)) dst.

(** The item the ring buffer hands out (if any) fits a line buffer of the
    configured size together with its terminator. *)
Definition item_fits (cfg : nat) (e : echo_env) : Prop :=
  ∀ item, ringbuffer_item e = Some item → (length item ≤ cfg)%nat.

Definition items_fit (cfg : nat) (envs : list echo_env) : Prop :=
  Forall (item_fits cfg) envs.

(** A driver that accepts everything for the device [h]; the line coding
    it reports before the set is 9600 8N1. *)
Definition session_ok (h : handle) : session_env :=
  mk_session_env ESP_OK (Some h)
    ESP_OK (mk_line_coding 9600 0 0 8)
    ESP_OK
    ESP_OK (mk_line_coding 115200 1 0 8)
    ESP_OK.

(** The state [app_main] is blocked in after it connected to device 1. *)
Definition connected_example : state :=
  outcome_state (app_main_loop_body (session_ok 1%positive) (initial_state 63)).

(** ** Reading a trace *)

(** The payload of a call of [cdc_acm_host_data_tx_blocking]. *)
Definition tx_payload (ev : event) : option (list byte) :=
  match ev with
  | EvDataTxBlocking _ payload _ _ => Some payload
  | _ => None
  end.

(** The payloads handed to the wired send, in call order. *)
Definition tx_payloads (evs : list event) : list (list byte) :=
  omap tx_payload evs.

(** How many times [vRingbufferReturnItem] was called. *)
Definition returned_items (evs : list event) : nat :=
  length (filter (λ ev, ev = EvRingbufferReturnItem) evs).

(** The item a turn of [echoTask] gets out of the ring buffer: none when
    the ring buffer handle is [NULL] or [xRingbufferReceive] returns [NULL]. *)
Definition dequeued_item (e : echo_env) : option (list byte) :=
  if nordic_uart_rx_buf_handle e then ringbuffer_item e else None.

Definition dequeued_items (envs : list echo_env) : list (list byte) :=
  omap dequeued_item envs.


(** The calls of a turn of the [app_main] loop whose open fails. *)
Definition failed_open_events (e : session_env) : list event :=
  [EvLog LOG_INFO TAG "Opening CDC ACM device 0x%04X:0x%04X...";
   EvOpen MD9600_USB_DEVICE_VID MD9600_USB_DEVICE_PID (open_hdl e) (open_ret e);
   EvLog LOG_INFO TAG "Failed to open device"].

(** The calls of a turn of the [app_main] loop in which every call
    succeeds. *)
Definition connect_events (e : session_env) : list event :=
  [EvLog LOG_INFO TAG "Opening CDC ACM device 0x%04X:0x%04X...";
   EvOpen MD9600_USB_DEVICE_VID MD9600_USB_DEVICE_PID (open_hdl e) ESP_OK;
   EvTaskDelay 100;
   EvLog LOG_INFO TAG "Setting up line coding";
   EvLineCodingGet (open_hdl e) ESP_OK;
   EvLineCodingSet (open_hdl e)
     {| dwDTERate := 115200; bCharFormat := 1;
        bParityType := 0; bDataBits := 8 |} ESP_OK;
   EvLineCodingGet (open_hdl e) ESP_OK;
   EvLogLineCoding (get2_line_coding e);
   EvSetControlLineState (open_hdl e) true false ESP_OK;
   EvLog LOG_INFO TAG "Connected CDC ACM device 0x%04X:0x%04X..."].

(** * Properties *)

(** ** C strings *)

Lemma c_str_no_nul (l : list byte) : NUL ∉ c_str l.
Proof.
  induction l as [|b l IH]; simpl; [set_solver|].
  case_decide; [set_solver|]. rewrite not_elem_of_cons. auto.
Qed.

Lemma c_str_id (l : list byte) : NUL ∉ l → c_str l = l.
Proof.
  induction l as [|b l IH]; simpl; [done|].
  rewrite not_elem_of_cons. intros [Hb Hl].
  case_decide; [congruence|]. by rewrite IH.
Qed.

Lemma c_str_app_nul (p r : list byte) : NUL ∉ p → c_str (p ++ NUL :: r) = p.
Proof.
  induction p as [|b p IH]; simpl; intros Hp.
  - done.
  - apply not_elem_of_cons in Hp as [Hb Hp].
    case_decide; [congruence|]. by rewrite IH.
Qed.

Lemma c_str_length (l : list byte) : (length (c_str l) ≤ length l)%nat.
Proof.
  induction l as [|b l IH]; simpl; [lia|]. case_decide; simpl; lia.
Qed.

Lemma c_str_take (l : list byte) : c_str l = take (length (c_str l)) l.
Proof.
  induction l as [|b l IH]; simpl; [done|].
  case_decide; simpl; [done|]. by rewrite <- IH.
Qed.

Lemma c_str_short (l : list byte) :
  NUL ∈ l → (length (c_str l) < length l)%nat.
Proof.
  induction l as [|b l IH]; simpl; [set_solver|].
  intros Hin. case_decide; simpl; [lia|].
  apply elem_of_cons in Hin as [Hb|Hl]; [congruence|]. apply IH in Hl. lia.
Qed.

Lemma c_str_split (l : list byte) :
  NUL ∈ l → ∃ rest, l = c_str l ++ NUL :: rest.
Proof.
  induction l as [|b l IH]; simpl; [set_solver|].
  intros Hin. case_decide as Hb.
  - subst b. by exists l.
  - apply elem_of_cons in Hin as [?|Hl]; [congruence|].
    destruct (IH Hl) as [rest Hrest]. exists rest. simpl. by rewrite <- Hrest.
Qed.

Lemma c_str_insert_nul (l : list byte) (i : nat) :
  (i < length (c_str l))%nat → c_str (<[i := NUL]> l) = take i l.
Proof.
  revert i. induction l as [|b l IH]; simpl; intros i Hi; [lia|].
  case_decide as Hb; simpl in Hi; [lia|].
  destruct i as [|i]; simpl.
  - done.
  - case_decide; [congruence|]. rewrite IH; [done|lia].
Qed.

(** ** Filling a line buffer *)

Lemma padded_length (data : list byte) : length (padded data) = length data.
Proof.
  unfold padded. rewrite length_app, length_replicate.
  pose proof (c_str_length data). lia.
Qed.

Lemma filled_length (dst data : list byte) :
  (length data < length dst)%nat → length (filled dst data) = length dst.
Proof.
  intros Hlt. unfold filled.
  rewrite length_app, padded_length. simpl. rewrite length_drop. lia.
Qed.

Lemma strncpy_fits (dst data : list byte) :
  (length data ≤ length dst)%nat →
  strncpy dst data (Z.of_nat (length data))
  = Some (padded data ++ drop (length data) dst).
Proof.
  intros Hle. unfold strncpy.
  rewrite decide_True by (split; [lia|left; lia]).
  rewrite Nat2Z.id, firstn_all. unfold padded. by rewrite <- app_assoc.
Qed.

Lemma strncpy_overflow (dst data : list byte) :
  (length dst < length data)%nat →
  strncpy dst data (Z.of_nat (length data)) = None.
Proof. intros Hlt. unfold strncpy. rewrite decide_False; [done|lia]. Qed.

Lemma buf_set_terminator (dst data : list byte) :
  (length data < length dst)%nat →
  buf_set (padded data ++ drop (length data) dst) (Z.of_nat (length data)) NUL
  = Some (filled dst data).
Proof.
  intros Hlt. unfold buf_set.
  rewrite length_app, padded_length, length_drop, decide_True by lia.
  rewrite Nat2Z.id. f_equal. unfold filled.
  rewrite insert_app_r_alt by (rewrite padded_length; lia).
  rewrite padded_length, Nat.sub_diag.
  destruct (drop (length data) dst) as [|x rest] eqn:Hdrop.
  - apply (f_equal length) in Hdrop. rewrite length_drop in Hdrop.
    simpl in Hdrop. lia.
  - simpl. do 2 f_equal.
    change (S (length data)) with (1 + length data)%nat.
    rewrite Nat.add_comm, <- drop_drop, Hdrop. done.
Qed.

Lemma buf_set_overflow (buf : list byte) (i : Z) (b : byte) :
  Z.of_nat (length buf) ≤ i → buf_set buf i b = None.
Proof. intros Hle. unfold buf_set. rewrite decide_False; [done|lia]. Qed.

Lemma buf_get_overflow (buf : list byte) (i : Z) :
  Z.of_nat (length buf) ≤ i → buf_get buf i = None.
Proof. intros Hle. unfold buf_get. rewrite decide_False; [done|lia]. Qed.

Lemma filled_terminator (dst data : list byte) :
  filled dst data !! length data = Some NUL.
Proof.
  unfold filled. rewrite lookup_app_r by (rewrite padded_length; lia).
  by rewrite padded_length, Nat.sub_diag.
Qed.

Lemma filled_has_nul (dst data : list byte) : NUL ∈ filled dst data.
Proof. apply list_elem_of_lookup. eexists. apply filled_terminator. Qed.

Lemma filled_c_str (dst data : list byte) :
  c_str (filled dst data) = c_str data.
Proof.
  unfold filled, padded. rewrite <- app_assoc.
  destruct (length data - length (c_str data))%nat as [|k]; simpl;
    apply c_str_app_nul, c_str_no_nul.
Qed.

Lemma read_string_filled (dst data : list byte) :
  read_string (filled dst data) = Some (c_str data).
Proof.
  unfold read_string. rewrite decide_True by apply filled_has_nul.
  by rewrite filled_c_str.
Qed.

Lemma strlen_filled (dst data : list byte) :
  strlen (filled dst data) = Some (length (c_str data)).
Proof.
  unfold strlen. rewrite decide_True by apply filled_has_nul.
  by rewrite filled_c_str.
Qed.

Lemma take_strlen_filled (dst data : list byte) :
  take (length (c_str data)) (filled dst data) = c_str data.
Proof.
  pose proof (c_str_take (filled dst data)) as Htake.
  rewrite filled_c_str in Htake. by symmetry.
Qed.

(** A carriage return found in the copied part sits in front of the first
    ['\0'] of the chunk. *)
Lemma filled_lookup_cr (dst data : list byte) (i : nat) :
  (i < length data)%nat → filled dst data !! i = Some CR →
  (i < length (c_str data))%nat.
Proof.
  intros Hi. unfold filled.
  rewrite lookup_app_l by (rewrite padded_length; lia).
  unfold padded. intros Hcr.
  destruct (decide (i < length (c_str data))%nat) as [|Hge]; [done|].
  rewrite lookup_app_r in Hcr by lia.
  apply lookup_replicate in Hcr as [Hcr _]. discriminate.
Qed.

(** ** [handle_rx] *)

Lemma size_t_sub_small (n : nat) :
  (2 ≤ n)%nat → Z.of_nat n ≤ 2 ^ SIZE_WIDTH →
  size_t_sub (Z.of_nat n) 2 = Z.of_nat (n - 2).
Proof.
  intros H2 Hn. unfold size_t_sub, size_t_wrap.
  rewrite Z.mod_small; lia.
Qed.

Lemma buf_set_in_range (buf : list byte) (i : nat) (b : byte) :
  (i < length buf)%nat → buf_set buf (Z.of_nat i) b = Some (<[i := b]> buf).
Proof.
  intros Hi. unfold buf_set. rewrite decide_True by lia. by rewrite Nat2Z.id.
Qed.

Lemma buf_get_in_range (buf : list byte) (i : nat) :
  (i < length buf)%nat → buf_get buf (Z.of_nat i) = buf !! i.
Proof.
  intros Hi. unfold buf_get. rewrite decide_True by lia. by rewrite Nat2Z.id.
Qed.

Lemma insert_nul_has_nul (buf : list byte) (i : nat) :
  (i < length buf)%nat → NUL ∈ <[i := NUL]> buf.
Proof.
  intros Hi. apply list_elem_of_lookup. exists i.
  by apply list_lookup_insert_eq.
Qed.

Lemma handle_rx_run (send_ret : esp_err_t) (data : list byte) (s : state) :
  (2 ≤ length data < length (rx_mbuf s))%nat →
  Z.of_nat (length (rx_mbuf s)) ≤ 2 ^ SIZE_WIDTH →
  let m := filled (rx_mbuf s) data in
  let final :=
    if decide (m !! (length data - 2)%nat = Some CR)
    then <[(length data - 2)%nat := NUL]> m else m in
  handle_rx send_ret data s
  = Done true
      (mk_state final (echo_mbuf s) (cdc_dev s) (env s)
         (trace s ++ [EvNordicUartSend (c_str data) send_ret]
            ++ (if decide (ESP_OK ≠ send_ret)
                then [EvLog LOG_WARN "UART->BLE" "Failed to sent to BLE UART"]
                else [])
            ++ [EvLogStr LOG_INFO "UART->BLE" (c_str final)])).
Proof.
  intros [H2 Hlt] Hsz m final.
  assert (Hidx : size_t_sub (Z.of_nat (length data)) 2
                 = Z.of_nat (length data - 2)) by (apply size_t_sub_small; lia).
  assert (Hm : length m = length (rx_mbuf s))
    by (subst m; apply filled_length; lia).
  assert (Hsome : is_Some (m !! (length data - 2)%nat))
    by (apply lookup_lt_is_Some; lia).
  destruct Hsome as [c Hc].
  unfold handle_rx, mbind, M_bind, get_rx_mbuf, set_rx_mbuf, checked,
    ESP_LOGW, emit, mret, M_ret.
  simpl. rewrite strncpy_fits by lia.
  simpl. rewrite buf_set_terminator by lia.
  simpl. rewrite read_string_filled, Hidx. fold m.
  rewrite buf_get_in_range, Hc, buf_set_in_range by lia.
  subst final. rewrite Hc.
  destruct (decide (ESP_OK ≠ send_ret)) as [Hs|Hs]; simpl;
    (destruct (decide (c = CR)) as [->|Hcr]; simpl;
     [ rewrite ?decide_True by done; unfold read_string;
       rewrite decide_True by (apply insert_nul_has_nul; lia)
     | rewrite ?decide_False by congruence; fold m; unfold read_string;
       rewrite decide_True by apply filled_has_nul ]);
    simpl; rewrite <- ?app_assoc; reflexivity.
Qed.

Lemma take_filled (dst data : list byte) (i : nat) :
  (i ≤ length (c_str data))%nat → take i (filled dst data) = take i data.
Proof.
  intros Hi. unfold filled, padded. rewrite <- app_assoc.
  rewrite take_app_le by done.
  rewrite (c_str_take data), take_take. f_equal. lia.
Qed.

Lemma wf_state_sizes (cfg : nat) (s : state) :
  wf_state cfg s →
  length (rx_mbuf s) = capacity cfg ∧ length (echo_mbuf s) = capacity cfg
  ∧ Z.of_nat (capacity cfg) ≤ 2 ^ SIZE_WIDTH - 2.
Proof.
  intros (Hrx & Hecho & Hsz). repeat split; [done..|].
  unfold object_size_ok, SIZE_WIDTH in *. simpl in *. lia.
Qed.

Lemma wf_initial_state (cfg : nat) :
  object_size_ok (capacity cfg) → wf_state cfg (initial_state cfg).
Proof.
  intros Hsz. unfold wf_state, initial_state. simpl.
  by rewrite length_replicate.
Qed.

(** C1 (amended): for every chunk of length [L] with [2 <= L <= capacity-1],
    [handle_rx] runs to the end and leaves a terminator at position [L] of
    its line buffer; when the byte at position [L-2] of the filled buffer is
    a carriage return, that byte is replaced by the terminator as well and
    the buffer holds the first [L-2] bytes of the chunk; otherwise the buffer
    holds the chunk up to its first ['\0'], which is the whole chunk when
    the chunk has none.  In both cases the buffer is a null-terminated
    string that ends at or before [L]. *)
Theorem handle_rx_frames (cfg : nat) (send_ret : esp_err_t)
    (data : list byte) (s : state) :
  wf_state cfg s →
  (2 ≤ length data ≤ capacity cfg - 1)%nat →
  ∃ (copied : list byte) (s' : state),
    strncpy (rx_mbuf s) data (Z.of_nat (length data)) = Some copied ∧
    buf_set copied (Z.of_nat (length data)) NUL
      = Some (filled (rx_mbuf s) data) ∧
    handle_rx send_ret data s = Done true s' ∧
    wf_state cfg s' ∧
    rx_mbuf s' !! length data = Some NUL ∧
    NUL ∈ rx_mbuf s' ∧
    (length (c_str (rx_mbuf s')) ≤ length data)%nat ∧
    (filled (rx_mbuf s) data !! (length data - 2)%nat = Some CR →
       rx_mbuf s' = <[(length data - 2)%nat := NUL]> (filled (rx_mbuf s) data) ∧
       rx_mbuf s' !! (length data - 2)%nat = Some NUL ∧
       c_str (rx_mbuf s') = take (length data - 2) data) ∧
    (filled (rx_mbuf s) data !! (length data - 2)%nat ≠ Some CR →
       rx_mbuf s' = filled (rx_mbuf s) data ∧
       c_str (rx_mbuf s') = c_str data ∧
       (NUL ∉ data → c_str (rx_mbuf s') = data)).
Proof.
  intros Hwf [H2 Hfit].
  pose proof (wf_state_sizes _ _ Hwf) as (Hrx & Hecho & Hsz).
  destruct Hwf as (_ & _ & Hobj).
  assert (Hlt : (length data < length (rx_mbuf s))%nat)
    by (rewrite Hrx; unfold capacity in *; lia).
  assert (Hm : length (filled (rx_mbuf s) data) = length (rx_mbuf s))
    by (apply filled_length; lia).
  eexists _, _.
  split; [apply strncpy_fits; lia|].
  split; [apply buf_set_terminator; lia|].
  split; [apply handle_rx_run; lia|].
  simpl. set (m := filled (rx_mbuf s) data) in *.
  destruct (decide (m !! (length data - 2)%nat = Some CR)) as [Hcr|Hcr].
  - assert (Hpos : (length data - 2 < length (c_str data))%nat)
      by (apply (filled_lookup_cr (rx_mbuf s)); [lia|done]).
    assert (Hstr : c_str (<[(length data - 2)%nat := NUL]> m)
                   = take (length data - 2) data).
    { rewrite c_str_insert_nul by (subst m; rewrite filled_c_str; lia).
      subst m. apply take_filled. lia. }
    split_and!.
    + split_and!; simpl; [by rewrite length_insert, Hm|done..].
    + rewrite list_lookup_insert_ne by lia. apply filled_terminator.
    + apply insert_nul_has_nul. lia.
    + rewrite Hstr, length_take. lia.
    + intros _. split_and!; [done| |done].
      apply list_lookup_insert_eq. lia.
    + intros Hno. by destruct Hno.
  - assert (Hstr : c_str m = c_str data) by apply filled_c_str.
    split_and!.
    + split_and!; simpl; [by rewrite Hm|done..].
    + apply filled_terminator.
    + apply filled_has_nul.
    + rewrite Hstr. apply c_str_length.
    + intros Hyes. by destruct Hcr.
    + intros _. split_and!; [done..|].
      intros Hno. rewrite Hstr. by apply c_str_id.
Qed.

Lemma handle_rx_frames_witness :
  wf_state 63 (initial_state 63) ∧
  (2 ≤ length (bytes "OK" ++ [CR; LF]) ≤ capacity 63 - 1)%nat ∧
  ∃ s' : state,
    handle_rx ESP_OK (bytes "OK" ++ [CR; LF]) (initial_state 63) = Done true s' ∧
    rx_mbuf s' !! 4%nat = Some NUL ∧
    rx_mbuf s' !! 2%nat = Some NUL ∧
    c_str (rx_mbuf s') = bytes "OK".
Proof.
  assert (Hwf : wf_state 63 (initial_state 63))
    by (apply wf_initial_state; reflexivity).
  assert (Hlen : (2 ≤ length (bytes "OK" ++ [CR; LF]) ≤ capacity 63 - 1)%nat)
    by (vm_compute; lia).
  split; [exact Hwf|]. split; [exact Hlen|].
  destruct (handle_rx_frames 63 ESP_OK (bytes "OK" ++ [CR; LF])
              (initial_state 63) Hwf Hlen)
    as (copied & s' & _ & _ & Hrun & _ & Hnul & _ & _ & Hcr & _).
  destruct (Hcr eq_refl) as (_ & Hcut & Hstr).
  exists s'. split; [exact Hrun|]. split; [exact Hnul|].
  split; [exact Hcut|exact Hstr].
Defined.

(** C1 as stated fails in two ways.  A chunk of length 1 is inside the
    stated range, yet the look-up at position [L-2] leaves the buffer; and a
    chunk with an embedded ['\0'] gives a string that ends at that ['\0'],
    not at [L]. *)
Lemma handle_rx_frames_counterexample :
  (∃ s' : state,
     handle_rx ESP_OK (bytes "A") (initial_state 63) = Fault s') ∧
  (∃ s' : state,
     handle_rx ESP_OK [x41; NUL; x42] (initial_state 63) = Done true s' ∧
     c_str (rx_mbuf s') = [x41] ∧
     length (c_str (rx_mbuf s')) ≠ length [x41; NUL; x42]).
Proof.
  split.
  - eexists. vm_compute. reflexivity.
  - exists (outcome_state (handle_rx ESP_OK [x41; NUL; x42] (initial_state 63))).
    split; [vm_compute; reflexivity|]. split; [vm_compute; reflexivity|].
    vm_compute. discriminate.
Qed.

Lemma handle_rx_overflow_run (send_ret : esp_err_t) (data : list byte) (s : state) :
  (length (rx_mbuf s) ≤ length data)%nat →
  ∃ s' : state, handle_rx send_ret data s = Fault s' ∧ trace s' = trace s
    ∧ echo_mbuf s' = echo_mbuf s ∧ cdc_dev s' = cdc_dev s ∧ env s' = env s.
Proof.
  intros Hle.
  unfold handle_rx, mbind, M_bind, get_rx_mbuf, set_rx_mbuf, checked. simpl.
  destruct (decide (length data = length (rx_mbuf s))) as [Heq|Hne].
  - rewrite strncpy_fits by lia. simpl.
    rewrite buf_set_overflow; [by eexists|].
    rewrite length_app, padded_length, length_drop. lia.
  - rewrite strncpy_overflow by lia. by eexists.
Qed.

(** C2: the claim asks for a clean [BufferOverflow] failure when the chunk
    length reaches the capacity.  [handle_rx] has no length check: it copies
    [data_len] bytes and stores the terminator at index [data_len], which is
    outside [mbuf] as soon as [data_len >= capacity].  Nothing is sent or
    logged and no error is returned. *)
Theorem handle_rx_oversized_chunk_faults (cfg : nat) (send_ret : esp_err_t)
    (data : list byte) (s : state) :
  wf_state cfg s →
  (capacity cfg ≤ length data)%nat →
  buf_set (rx_mbuf s) (Z.of_nat (length data)) NUL = None ∧
  ∃ s' : state,
    handle_rx send_ret data s = Fault s' ∧ trace s' = trace s.
Proof.
  intros (Hrx & _ & _) Hle. split.
  - apply buf_set_overflow. lia.
  - destruct (handle_rx_overflow_run send_ret data s) as (s' & Hrun & Htr & _);
      [lia|]. eauto.
Qed.

Lemma handle_rx_oversized_chunk_faults_witness :
  wf_state 63 (initial_state 63) ∧
  (capacity 63 ≤ length (replicate 64 x41))%nat ∧
  ∃ s' : state,
    handle_rx ESP_OK (replicate 64 x41) (initial_state 63) = Fault s' ∧
    trace s' = [].
Proof.
  assert (Hwf : wf_state 63 (initial_state 63))
    by (apply wf_initial_state; reflexivity).
  assert (Hlen : (capacity 63 ≤ length (replicate 64 x41))%nat)
    by (vm_compute; lia).
  split; [exact Hwf|]. split; [exact Hlen|].
  exact (proj2 (handle_rx_oversized_chunk_faults 63 ESP_OK (replicate 64 x41)
                  (initial_state 63) Hwf Hlen)).
Defined.

Lemma size_t_sub_underflow (n : nat) :
  (n < 2)%nat →
  size_t_sub (Z.of_nat n) 2 = 2 ^ SIZE_WIDTH - 2 + Z.of_nat n.
Proof.
  intros Hn. unfold size_t_sub, size_t_wrap.
  rewrite <- (Z_mod_plus_full (Z.of_nat n - 2) 1 (2 ^ SIZE_WIDTH)).
  assert (0 < 2 ^ SIZE_WIDTH) by done.
  assert (2 < 2 ^ SIZE_WIDTH) by done.
  rewrite Z.mod_small; lia.
Qed.

(** C3: the claim asks for a length check in front of the look-up at
    position [L-2].  [handle_rx] has none: for a chunk shorter than two
    bytes [data_len - 2] wraps around in [size_t] and the read of
    [mbuf[data_len - 2]] is outside the array.  The line has already been
    sent when this happens. *)
Theorem handle_rx_short_chunk_underflow (cfg : nat) (send_ret : esp_err_t)
    (data : list byte) (s : state) :
  wf_state cfg s →
  (length data < 2)%nat →
  (length data ≤ capacity cfg - 1)%nat →
  size_t_sub (Z.of_nat (length data)) 2
    = 2 ^ SIZE_WIDTH - 2 + Z.of_nat (length data) ∧
  ∃ s' : state,
    handle_rx send_ret data s = Fault s' ∧
    buf_get (rx_mbuf s') (size_t_sub (Z.of_nat (length data)) 2) = None ∧
    trace s' = trace s ++ [EvNordicUartSend (c_str data) send_ret]
                 ++ (if decide (ESP_OK ≠ send_ret)
                     then [EvLog LOG_WARN "UART->BLE" "Failed to sent to BLE UART"]
                     else []).
Proof.
  intros Hwf H2 Hfit.
  pose proof (wf_state_sizes _ _ Hwf) as (Hrx & Hecho & Hsz).
  pose proof (size_t_sub_underflow _ H2) as Hidx.
  split; [exact Hidx|].
  assert (Hlt : (length data < length (rx_mbuf s))%nat)
    by (rewrite Hrx; unfold capacity in *; lia).
  assert (Hm : length (filled (rx_mbuf s) data) = length (rx_mbuf s))
    by (apply filled_length; lia).
  assert (Hout : buf_get (filled (rx_mbuf s) data)
                   (size_t_sub (Z.of_nat (length data)) 2) = None).
  { apply buf_get_overflow. rewrite Hm, Hrx, Hidx. lia. }
  unfold handle_rx, mbind, M_bind, get_rx_mbuf, set_rx_mbuf, checked,
    ESP_LOGW, emit, mret, M_ret.
  simpl. rewrite strncpy_fits by lia.
  simpl. rewrite buf_set_terminator by lia.
  simpl. rewrite read_string_filled.
  destruct (decide (ESP_OK ≠ send_ret)) as [Hs|Hs]; simpl;
    rewrite Hout; eexists; (split; [reflexivity|]); simpl;
    (split; [exact Hout|]); by rewrite <- ?app_assoc.
Qed.

Lemma handle_rx_short_chunk_underflow_witness :
  wf_state 63 (initial_state 63) ∧
  (length (bytes "A") < 2)%nat ∧
  (length (bytes "A") ≤ capacity 63 - 1)%nat ∧
  size_t_sub 1 2 = 4294967295 ∧
  ∃ s' : state,
    handle_rx ESP_OK (bytes "A") (initial_state 63) = Fault s' ∧
    trace s' = [EvNordicUartSend (bytes "A") ESP_OK].
Proof.
  assert (Hwf : wf_state 63 (initial_state 63))
    by (apply wf_initial_state; reflexivity).
  assert (Hshort : (length (bytes "A") < 2)%nat) by (vm_compute; lia).
  assert (Hfit : (length (bytes "A") ≤ capacity 63 - 1)%nat)
    by (vm_compute; lia).
  split; [exact Hwf|]. split; [exact Hshort|]. split; [exact Hfit|].
  destruct (handle_rx_short_chunk_underflow 63 ESP_OK (bytes "A")
              (initial_state 63) Hwf Hshort Hfit)
    as (Hidx & s' & Hrun & _ & Htr).
  split; [exact Hidx|]. exists s'. split; [exact Hrun|exact Htr].
Defined.

(** C4 (amended): [handle_rx] copies the chunk, terminates it and sends it
    on the wireless adapter first; the carriage return at position
    [length-2] is replaced only afterwards.  So for a chunk [text CR LF]
    without ['\0'] the line given to [nordic_uart_send] is the whole chunk,
    CR and LF included, and the line with CR/LF stripped is the one that is
    logged. *)
Theorem handle_rx_sends_then_trims (cfg : nat) (send_ret : esp_err_t)
    (text : list byte) (s : state) :
  wf_state cfg s →
  NUL ∉ text →
  (length (text ++ [CR; LF]) ≤ capacity cfg - 1)%nat →
  ∃ s' : state,
    handle_rx send_ret (text ++ [CR; LF]) s = Done true s' ∧
    c_str (rx_mbuf s') = text ∧
    trace s' = trace s ++ [EvNordicUartSend (text ++ [CR; LF]) send_ret]
                 ++ (if decide (ESP_OK ≠ send_ret)
                     then [EvLog LOG_WARN "UART->BLE" "Failed to sent to BLE UART"]
                     else [])
                 ++ [EvLogStr LOG_INFO "UART->BLE" text].
Proof.
  intros Hwf Hno Hfit.
  pose proof (wf_state_sizes _ _ Hwf) as (Hrx & Hecho & Hsz).
  set (data := text ++ [CR; LF]) in *.
  assert (Hlen : length data = (length text + 2)%nat)
    by (subst data; rewrite length_app; simpl; lia).
  assert (Hdata : c_str data = data).
  { apply c_str_id. subst data. rewrite elem_of_app, !elem_of_cons.
    intros [?|[?|[?|?%elem_of_nil]]]; done. }
  assert (Hcr : filled (rx_mbuf s) data !! (length data - 2)%nat = Some CR).
  { unfold filled, padded. rewrite Hdata, Nat.sub_diag. simpl.
    rewrite app_nil_r, lookup_app_l by lia.
    subst data. rewrite lookup_app_r by lia.
    replace (length (text ++ [CR; LF]) - 2 - length text)%nat with 0%nat by lia.
    done. }
  assert (Hcut : c_str (<[(length data - 2)%nat := NUL]> (filled (rx_mbuf s) data))
                 = text).
  { rewrite c_str_insert_nul by (rewrite filled_c_str, Hdata; lia).
    rewrite take_filled by (rewrite Hdata; lia).
    subst data. rewrite Hlen. replace (length text + 2 - 2)%nat with (length text) by lia.
    by rewrite take_app_length. }
  eexists. split; [apply handle_rx_run; unfold capacity in *; lia|].
  simpl. rewrite decide_True by done. rewrite Hdata, Hcut. done.
Qed.

Lemma handle_rx_sends_then_trims_witness :
  wf_state 63 (initial_state 63) ∧
  (NUL ∉ bytes "OK") ∧
  (length (bytes "OK" ++ [CR; LF]) ≤ capacity 63 - 1)%nat ∧
  ∃ s' : state,
    handle_rx ESP_OK (bytes "OK" ++ [CR; LF]) (initial_state 63) = Done true s' ∧
    trace s' = [EvNordicUartSend (bytes "OK" ++ [CR; LF]) ESP_OK;
                EvLogStr LOG_INFO "UART->BLE" (bytes "OK")].
Proof.
  assert (Hwf : wf_state 63 (initial_state 63))
    by (apply wf_initial_state; reflexivity).
  assert (Hno : NUL ∉ bytes "OK").
  { intros Hin. apply list_elem_of_In in Hin. simpl in Hin.
    destruct Hin as [H|[H|H]]; [discriminate H|discriminate H|exact H]. }
  assert (Hfit : (length (bytes "OK" ++ [CR; LF]) ≤ capacity 63 - 1)%nat)
    by (vm_compute; lia).
  split; [exact Hwf|]. split; [exact Hno|]. split; [exact Hfit|].
  destruct (handle_rx_sends_then_trims 63 ESP_OK (bytes "OK")
              (initial_state 63) Hwf Hno Hfit) as (s' & Hrun & _ & Htr).
  exists s'. split; [exact Hrun|exact Htr].
Defined.

(** C4 as stated fails: for the chunk [OK CR LF] the wireless send receives
    the four bytes [OK CR LF]; the stripped line [OK] is never sent, it is
    only logged. *)
Lemma handle_rx_sends_then_trims_counterexample :
  trace (outcome_state
           (handle_rx ESP_OK (bytes "OK" ++ [CR; LF]) (initial_state 63)))
  = [EvNordicUartSend (bytes "OK" ++ [CR; LF]) ESP_OK;
     EvLogStr LOG_INFO "UART->BLE" (bytes "OK")]
  ∧ (EvNordicUartSend (bytes "OK") ESP_OK
      ∉ trace (outcome_state
                 (handle_rx ESP_OK (bytes "OK" ++ [CR; LF]) (initial_state 63)))).
Proof.
  assert (Htr : trace (outcome_state
             (handle_rx ESP_OK (bytes "OK" ++ [CR; LF]) (initial_state 63)))
          = [EvNordicUartSend (bytes "OK" ++ [CR; LF]) ESP_OK;
             EvLogStr LOG_INFO "UART->BLE" (bytes "OK")])
    by (vm_compute; reflexivity).
  split; [exact Htr|]. rewrite Htr.
  rewrite !not_elem_of_cons. split_and!; [discriminate..|apply not_elem_of_nil].
Qed.

(** ** [echoTask] *)

Lemma echoTask_body_run (e : echo_env) (item : list byte) (s : state) :
  nordic_uart_rx_buf_handle e = true →
  ringbuffer_item e = Some item →
  (length item < length (echo_mbuf s))%nat →
  echoTask_body e s
  = Done tt
      (mk_state (rx_mbuf s) (filled (echo_mbuf s) item) (cdc_dev s) (env s)
         (trace s ++ [EvRingbufferReceive (Some item);
                      EvLogStr LOG_INFO "BLE->UART" (c_str item);
                      EvDataTxBlocking (cdc_dev s) (c_str item)
                        USB_TX_TIMEOUT_MS (tx_ret e)]
            ++ (if decide (ESP_OK ≠ tx_ret e)
                then [EvLog LOG_WARN "BLE->UART" "Failed send to USB UART"]
                else [])
            ++ [EvRingbufferReturnItem])).
Proof.
  intros Hh Hitem Hlt.
  unfold echoTask_body. rewrite Hh, Hitem.
  unfold mbind, M_bind, get_echo_mbuf, set_echo_mbuf, get_cdc_dev, checked,
    ESP_LOGW, emit, mret, M_ret.
  simpl. rewrite strncpy_fits by lia.
  simpl. rewrite buf_set_terminator by lia.
  simpl. rewrite read_string_filled.
  simpl. rewrite strlen_filled.
  simpl. rewrite take_strlen_filled.
  destruct (decide (ESP_OK ≠ tx_ret e)) as [Hs|Hs]; simpl;
    rewrite <- ?app_assoc; reflexivity.
Qed.

Lemma echoTask_body_total (cfg : nat) (e : echo_env) (s : state) :
  wf_state cfg s → item_fits cfg e →
  ∃ s' : state,
    echoTask_body e s = Done tt s' ∧ wf_state cfg s' ∧ cdc_dev s' = cdc_dev s.
Proof.
  intros Hwf Hfit. pose proof Hwf as (Hrx & Hecho & Hobj).
  destruct (nordic_uart_rx_buf_handle e) eqn:Hh.
  - destruct (ringbuffer_item e) as [item|] eqn:Hitem.
    + assert (Hlt : (length item < length (echo_mbuf s))%nat).
      { rewrite Hecho. unfold capacity. specialize (Hfit item Hitem). lia. }
      eexists. split; [by apply echoTask_body_run|].
      split; [|done]. split_and!; simpl; [done| |done].
      rewrite filled_length; done.
    + unfold echoTask_body. rewrite Hh, Hitem. eexists. split; [reflexivity|].
      split; [|done]. split_and!; done.
  - unfold echoTask_body. rewrite Hh. eexists. split; [reflexivity|].
    split; [|done]. split_and!; done.
Qed.

Lemma echoTask_total (cfg : nat) (envs : list echo_env) (s : state) :
  wf_state cfg s → items_fit cfg envs →
  ∃ s' : state,
    echoTask envs s = Done tt s' ∧ wf_state cfg s' ∧ cdc_dev s' = cdc_dev s.
Proof.
  revert s. induction envs as [|e envs IH]; intros s Hwf Hfit.
  - exists s. done.
  - apply Forall_cons in Hfit as [He Hrest].
    destruct (echoTask_body_total cfg e s Hwf He) as (s1 & Hrun & Hwf1 & Hdev1).
    destruct (IH s1 Hwf1 Hrest) as (s2 & Hrun2 & Hwf2 & Hdev2).
    exists s2. split; [|split; [done|congruence]].
    simpl. unfold mbind, M_bind. by rewrite Hrun.
Qed.

(** C5 (amended): for every chunk the pump dequeues (and that fits the line
    buffer), [echoTask] calls the wired send with the current value of
    [cdc_dev], whether a handle is present or not, and with the 1000 ms
    timeout; a status other than [ESP_OK] is logged as a warning; the item
    is returned to the ring buffer and the pump goes on with the next
    dequeue.  The pump never faults or leaves its loop on such chunks. *)
Theorem echoTask_sends_every_chunk (cfg : nat) (e : echo_env)
    (item : list byte) (rest : list echo_env) (s : state) :
  wf_state cfg s →
  nordic_uart_rx_buf_handle e = true →
  ringbuffer_item e = Some item →
  (length item ≤ capacity cfg - 1)%nat →
  USB_TX_TIMEOUT_MS = 1000 ∧
  ∃ s' : state,
    echoTask_body e s = Done tt s' ∧
    wf_state cfg s' ∧
    cdc_dev s' = cdc_dev s ∧
    trace s' = trace s
      ++ [EvRingbufferReceive (Some item);
          EvLogStr LOG_INFO "BLE->UART" (c_str item);
          EvDataTxBlocking (cdc_dev s) (c_str item) USB_TX_TIMEOUT_MS (tx_ret e)]
      ++ (if decide (ESP_OK ≠ tx_ret e)
          then [EvLog LOG_WARN "BLE->UART" "Failed send to USB UART"]
          else [])
      ++ [EvRingbufferReturnItem] ∧
    echoTask (e :: rest) s = echoTask rest s' ∧
    (items_fit cfg rest → ∃ s'' : state, echoTask (e :: rest) s = Done tt s'').
Proof.
  intros Hwf Hh Hitem Hfit. split; [done|].
  pose proof Hwf as (Hrx & Hecho & Hobj).
  assert (Hlt : (length item < length (echo_mbuf s))%nat)
    by (rewrite Hecho; unfold capacity in *; lia).
  pose proof (echoTask_body_run e item s Hh Hitem Hlt) as Hrun.
  eexists. split; [exact Hrun|].
  assert (Hwf' : wf_state cfg
            (mk_state (rx_mbuf s) (filled (echo_mbuf s) item) (cdc_dev s) (env s)
               (trace s ++ [EvRingbufferReceive (Some item);
                      EvLogStr LOG_INFO "BLE->UART" (c_str item);
                      EvDataTxBlocking (cdc_dev s) (c_str item)
                        USB_TX_TIMEOUT_MS (tx_ret e)]
                  ++ (if decide (ESP_OK ≠ tx_ret e)
                      then [EvLog LOG_WARN "BLE->UART" "Failed send to USB UART"]
                      else [])
                  ++ [EvRingbufferReturnItem]))).
  { split_and!; simpl; [done| |done]. by rewrite filled_length. }
  split; [exact Hwf'|]. split; [done|]. split; [done|].
  assert (Hstep : ∀ k, echoTask (e :: k) s = echoTask k
            (mk_state (rx_mbuf s) (filled (echo_mbuf s) item) (cdc_dev s) (env s)
               (trace s ++ [EvRingbufferReceive (Some item);
                      EvLogStr LOG_INFO "BLE->UART" (c_str item);
                      EvDataTxBlocking (cdc_dev s) (c_str item)
                        USB_TX_TIMEOUT_MS (tx_ret e)]
                  ++ (if decide (ESP_OK ≠ tx_ret e)
                      then [EvLog LOG_WARN "BLE->UART" "Failed send to USB UART"]
                      else [])
                  ++ [EvRingbufferReturnItem])))
    by (intros k; simpl; unfold mbind, M_bind; by rewrite Hrun).
  split; [apply Hstep|].
  intros Hrest. rewrite Hstep.
  destruct (echoTask_total cfg rest _ Hwf' Hrest) as (s2 & Hrun2 & _).
  by exists s2.
Qed.

Lemma echoTask_sends_every_chunk_witness :
  wf_state 63 (initial_state 63) ∧
  (length (bytes "hi") ≤ capacity 63 - 1)%nat ∧
  ∃ s' : state,
    echoTask_body (mk_echo_env true (Some (bytes "hi")) 0x102) (initial_state 63)
      = Done tt s' ∧
    trace s' = [EvRingbufferReceive (Some (bytes "hi"));
                EvLogStr LOG_INFO "BLE->UART" (bytes "hi");
                EvDataTxBlocking None (bytes "hi") 1000 0x102;
                EvLog LOG_WARN "BLE->UART" "Failed send to USB UART";
                EvRingbufferReturnItem].
Proof.
  assert (Hwf : wf_state 63 (initial_state 63))
    by (apply wf_initial_state; reflexivity).
  assert (Hfit : (length (bytes "hi") ≤ capacity 63 - 1)%nat)
    by (vm_compute; lia).
  split; [exact Hwf|]. split; [exact Hfit|].
  destruct (echoTask_sends_every_chunk 63
              (mk_echo_env true (Some (bytes "hi")) 0x102) (bytes "hi") []
              (initial_state 63) Hwf eq_refl eq_refl Hfit)
    as (_ & s' & Hrun & _ & _ & Htr & _).
  exists s'. split; [exact Hrun|exact Htr].
Defined.

(** C5 as stated fails: with no wired device handle ([cdc_dev] is [NULL])
    the dequeued chunk is not dropped silently; the wired send is called
    with the [NULL] handle and its failure is logged. *)
Lemma echoTask_absent_handle_counterexample :
  cdc_dev (initial_state 63) = None ∧
  trace (outcome_state
           (echoTask_body (mk_echo_env true (Some (bytes "hi")) 0x102)
              (initial_state 63)))
  = [EvRingbufferReceive (Some (bytes "hi"));
     EvLogStr LOG_INFO "BLE->UART" (bytes "hi");
     EvDataTxBlocking None (bytes "hi") 1000 0x102;
     EvLog LOG_WARN "BLE->UART" "Failed send to USB UART";
     EvRingbufferReturnItem].
Proof. split; [reflexivity|vm_compute; reflexivity]. Qed.

(** C7 (amended): every dequeued chunk (that fits) is copied into the
    bounded line buffer and null-terminated, and the bytes handed to the
    wired send are the string in that buffer: the chunk up to its first
    ['\0'].  No carriage return is trimmed on this path: a chunk
    [text CR LF] without ['\0'] is sent whole. *)
Theorem echoTask_sends_buffer_string (cfg : nat) (e : echo_env)
    (item : list byte) (s : state) :
  wf_state cfg s →
  nordic_uart_rx_buf_handle e = true →
  ringbuffer_item e = Some item →
  (length item ≤ capacity cfg - 1)%nat →
  ∃ (copied : list byte) (s' : state),
    strncpy (echo_mbuf s) item (Z.of_nat (length item)) = Some copied ∧
    buf_set copied (Z.of_nat (length item)) NUL = Some (echo_mbuf s') ∧
    echoTask_body e s = Done tt s' ∧
    length (echo_mbuf s') = capacity cfg ∧
    echo_mbuf s' !! length item = Some NUL ∧
    read_string (echo_mbuf s') = Some (c_str item) ∧
    EvDataTxBlocking (cdc_dev s) (c_str item) USB_TX_TIMEOUT_MS (tx_ret e)
      ∈ trace s' ∧
    (∀ text, item = text ++ [CR; LF] → NUL ∉ text → c_str item = text ++ [CR; LF]).
Proof.
  intros Hwf Hh Hitem Hfit. pose proof Hwf as (Hrx & Hecho & Hobj).
  assert (Hlt : (length item < length (echo_mbuf s))%nat)
    by (rewrite Hecho; unfold capacity in *; lia).
  eexists _, _. split; [apply strncpy_fits; lia|].
  split; [|split; [by apply echoTask_body_run|]].
  - simpl. apply buf_set_terminator. lia.
  - simpl. split_and!.
    + by rewrite filled_length.
    + apply filled_terminator.
    + apply read_string_filled.
    + rewrite !elem_of_app, !elem_of_cons. auto.
    + intros text -> Hno. apply c_str_id.
      rewrite elem_of_app, !elem_of_cons.
      intros [?|[?|[?|?%elem_of_nil]]]; done.
Qed.

Lemma echoTask_sends_buffer_string_witness :
  wf_state 63 (initial_state 63) ∧
  (length (bytes "AT" ++ [CR; LF]) ≤ capacity 63 - 1)%nat ∧
  ∃ s' : state,
    echoTask_body (mk_echo_env true (Some (bytes "AT" ++ [CR; LF])) ESP_OK)
      (initial_state 63) = Done tt s' ∧
    EvDataTxBlocking None (bytes "AT" ++ [CR; LF]) 1000 ESP_OK ∈ trace s'.
Proof.
  assert (Hwf : wf_state 63 (initial_state 63))
    by (apply wf_initial_state; reflexivity).
  assert (Hfit : (length (bytes "AT" ++ [CR; LF]) ≤ capacity 63 - 1)%nat)
    by (vm_compute; lia).
  split; [exact Hwf|]. split; [exact Hfit|].
  destruct (echoTask_sends_buffer_string 63
              (mk_echo_env true (Some (bytes "AT" ++ [CR; LF])) ESP_OK)
              (bytes "AT" ++ [CR; LF]) (initial_state 63) Hwf eq_refl eq_refl Hfit)
    as (copied & s' & _ & _ & Hrun & _ & _ & _ & Htx & _).
  exists s'. split; [exact Hrun|exact Htx].
Defined.

(** C7 as stated fails: for the chunk [AT CR LF] the wired send receives
    all four bytes, carriage return included, while the framing of
    [handle_rx] leaves [AT] for the same chunk. *)
Lemma echoTask_no_trim_counterexample :
  trace (outcome_state
           (echoTask_body (mk_echo_env true (Some (bytes "AT" ++ [CR; LF])) ESP_OK)
              (initial_state 63)))
  = [EvRingbufferReceive (Some (bytes "AT" ++ [CR; LF]));
     EvLogStr LOG_INFO "BLE->UART" (bytes "AT" ++ [CR; LF]);
     EvDataTxBlocking None (bytes "AT" ++ [CR; LF]) 1000 ESP_OK;
     EvRingbufferReturnItem]
  ∧ c_str (rx_mbuf (outcome_state
                      (handle_rx ESP_OK (bytes "AT" ++ [CR; LF]) (initial_state 63))))
    = bytes "AT".
Proof. split; vm_compute; reflexivity. Qed.

(** C10: in the wireless-to-wired pump the bytes handed to the wired
    blocking send are the first [strlen(mbuf)] bytes of the line buffer, not
    [item_size] bytes: for a chunk with an embedded ['\0'] only the bytes in
    front of the first ['\0'] are sent, and a chunk without ['\0'] is sent
    whole. *)
Theorem echoTask_tx_length_is_strlen (cfg : nat) (e : echo_env)
    (item : list byte) (s : state) :
  wf_state cfg s →
  nordic_uart_rx_buf_handle e = true →
  ringbuffer_item e = Some item →
  (length item ≤ capacity cfg - 1)%nat →
  ∃ (s' : state) (sent : list byte) (len : nat),
    echoTask_body e s = Done tt s' ∧
    strlen (echo_mbuf s') = Some len ∧
    sent = take len (echo_mbuf s') ∧
    length sent = len ∧
    trace s' = trace s
      ++ [EvRingbufferReceive (Some item);
          EvLogStr LOG_INFO "BLE->UART" sent;
          EvDataTxBlocking (cdc_dev s) sent USB_TX_TIMEOUT_MS (tx_ret e)]
      ++ (if decide (ESP_OK ≠ tx_ret e)
          then [EvLog LOG_WARN "BLE->UART" "Failed send to USB UART"]
          else [])
      ++ [EvRingbufferReturnItem] ∧
    (NUL ∈ item →
       (∃ tail, item = sent ++ NUL :: tail) ∧ (NUL ∉ sent) ∧
       (len < length item)%nat) ∧
    (NUL ∉ item → sent = item ∧ len = length item).
Proof.
  intros Hwf Hh Hitem Hfit. pose proof Hwf as (Hrx & Hecho & Hobj).
  assert (Hlt : (length item < length (echo_mbuf s))%nat)
    by (rewrite Hecho; unfold capacity in *; lia).
  eexists _, (c_str item), (length (c_str item)).
  split; [by apply echoTask_body_run|]. simpl. split_and!.
  - apply strlen_filled.
  - symmetry. apply take_strlen_filled.
  - done.
  - done.
  - intros Hin. split_and!.
    + by apply c_str_split.
    + apply c_str_no_nul.
    + by apply c_str_short.
  - intros Hno. by rewrite c_str_id.
Qed.

Lemma echoTask_tx_length_is_strlen_witness :
  wf_state 63 (initial_state 63) ∧
  (length [x41; NUL; x42] ≤ capacity 63 - 1)%nat ∧
  ∃ (s' : state) (sent : list byte) (len : nat),
    echoTask_body (mk_echo_env true (Some [x41; NUL; x42]) ESP_OK)
      (initial_state 63) = Done tt s' ∧
    strlen (echo_mbuf s') = Some len ∧
    sent = take len (echo_mbuf s') ∧
    (len < length [x41; NUL; x42])%nat.
Proof.
  assert (Hwf : wf_state 63 (initial_state 63))
    by (apply wf_initial_state; reflexivity).
  assert (Hfit : (length [x41; NUL; x42] ≤ capacity 63 - 1)%nat)
    by (vm_compute; lia).
  assert (Hin : NUL ∈ [x41; NUL; x42])
    by (rewrite !elem_of_cons; auto).
  split; [exact Hwf|]. split; [exact Hfit|].
  destruct (echoTask_tx_length_is_strlen 63
              (mk_echo_env true (Some [x41; NUL; x42]) ESP_OK)
              [x41; NUL; x42] (initial_state 63) Hwf eq_refl eq_refl Hfit)
    as (s' & sent & len & Hrun & Hlen & Hsent & _ & _ & Hnul & _).
  destruct (Hnul Hin) as (_ & _ & Hshort).
  exists s', sent, len.
  split; [exact Hrun|]. split; [exact Hlen|]. split; [exact Hsent|exact Hshort].
Defined.

(** ** [handle_event] and [app_main] *)

Ltac run_lifecycle :=
  unfold app_main_loop_body, handle_event, app_main_wake, ESP_ERROR_CHECK,
    ESP_LOGI, ESP_LOGW, ESP_LOGE, emit, abort, get_cdc_dev, set_cdc_dev,
    mbind, M_bind, mret, M_ret;
  simpl.

Lemma prefix_of_three {A} (evs : list A) (a b c : A) :
  evs `prefix_of` [a; b; c] →
  evs = [] ∨ evs = [a] ∨ evs = [a; b] ∨ evs = [a; b; c].
Proof.
  intros [k Hk].
  destruct evs as [|e1 [|e2 [|e3 [|e4 evs]]]]; simpl in Hk;
    inversion Hk; subst; auto.
Qed.

(** C6: on a disconnect event [handle_event] closes the device handle
    first and gives the semaphore afterwards, once; when the close fails the
    process is aborted and the semaphore is never given.  So at no point of
    the handler is the semaphore set while the handle is still open, and the
    single signal is consumed by the [xSemaphoreTake] of [app_main], which
    then returns to the top of its loop. *)
Theorem handle_event_closes_before_signal (h : handle)
    (close_ret : esp_err_t) (s : state) :
  device_disconnected_sem (env s) = false →
  ∃ s' : state,
    (if decide (close_ret = ESP_OK)
     then handle_event (CDC_ACM_HOST_DEVICE_DISCONNECTED h) close_ret s
            = Done tt s' ∧
          trace s' = trace s ++ [EvLog LOG_INFO TAG "Device suddenly disconnected";
                                 EvClose h ESP_OK;
                                 EvSemaphoreGive] ∧
          device_disconnected_sem (env s') = true ∧
          (h ∉ open_devices (env s')) ∧
          ∃ s'' : state,
            app_main_wake s' = Done Idle s'' ∧
            trace s'' = trace s' ++ [EvSemaphoreTake] ∧
            device_disconnected_sem (env s'') = false
     else handle_event (CDC_ACM_HOST_DEVICE_DISCONNECTED h) close_ret s
            = Aborted s' ∧
          trace s' = trace s ++ [EvLog LOG_INFO TAG "Device suddenly disconnected";
                                 EvClose h close_ret;
                                 EvAbort] ∧
          device_disconnected_sem (env s') = false) ∧
    ∀ evs : list event,
      trace s ++ evs `prefix_of` trace s' →
      device_disconnected_sem (replay evs (env s)) = true →
      h ∉ open_devices (replay evs (env s)).
Proof.
  intros Hsem. destruct (decide (close_ret = ESP_OK)) as [->|Hfail].
  - eexists. split.
    + split; [run_lifecycle; reflexivity|]. simpl.
      split; [by rewrite <- !app_assoc|]. split; [done|].
      split; [intros [_ Hne]%elem_of_difference; apply Hne;
              by apply elem_of_singleton|].
      eexists. run_lifecycle. split; [reflexivity|]. simpl. done.
    + simpl. rewrite <- !app_assoc. simpl.
      intros evs Hpre%prefix_app_inv.
      apply prefix_of_three in Hpre as [-> | [-> | [-> | ->]]]; simpl;
        rewrite ?Hsem; try done.
      intros _ [_ Hne]%elem_of_difference. apply Hne.
      by apply elem_of_singleton.
  - eexists. split.
    + run_lifecycle. rewrite decide_False by done. simpl.
      split; [reflexivity|]. simpl. rewrite decide_False by done.
      split; [by rewrite <- !app_assoc|done].
    + simpl. rewrite <- !app_assoc. simpl.
      intros evs Hpre%prefix_app_inv.
      apply prefix_of_three in Hpre as [-> | [-> | [-> | ->]]]; simpl;
        rewrite ?decide_False by done; rewrite ?Hsem; done.
Qed.

Lemma handle_event_closes_before_signal_witness :
  device_disconnected_sem (env connected_example) = false ∧
  1%positive ∈ open_devices (env connected_example) ∧
  ∃ s' : state,
    handle_event (CDC_ACM_HOST_DEVICE_DISCONNECTED 1%positive) ESP_OK connected_example
      = Done tt s' ∧
    trace s' = trace connected_example
                 ++ [EvLog LOG_INFO TAG "Device suddenly disconnected";
                     EvClose 1%positive ESP_OK;
                     EvSemaphoreGive] ∧
    (1%positive ∉ open_devices (env s')).
Proof.
  split; [reflexivity|]. split; [vm_compute; reflexivity|].
  destruct (handle_event_closes_before_signal 1%positive ESP_OK connected_example eq_refl)
    as (s' & Hrun & _).
  simpl in Hrun. destruct Hrun as (Hrun & Htr & _ & Hclosed & _).
  exists s'. split; [exact Hrun|]. split; [exact Htr|exact Hclosed].
Defined.

(** C8: after a successful open, the loop of [app_main] sets the line
    coding to rate 115200, 8 data bits, parity 0 and stop-bit field 1, reads
    the line coding back, and sets the control-line state with DTR asserted
    and RTS not asserted; when every one of these calls reports success the
    turn ends inside [xSemaphoreTake], where the task stays as long as the
    semaphore is empty. *)
Theorem app_main_configures_then_connects (e : session_env)
    (rest : list session_env) (s : state) :
  open_ret e = ESP_OK →
  get1_ret e = ESP_OK →
  set_ret e = ESP_OK →
  get2_ret e = ESP_OK →
  ctl_ret e = ESP_OK →
  ∃ s' : state,
    app_main_loop_body e s = Done Connected s' ∧
    app_main_loop (e :: rest) s = Done Connected s' ∧
    cdc_dev s' = open_hdl e ∧
    trace s' = trace s ++
      [EvLog LOG_INFO TAG "Opening CDC ACM device 0x%04X:0x%04X...";
       EvOpen MD9600_USB_DEVICE_VID MD9600_USB_DEVICE_PID (open_hdl e) ESP_OK;
       EvTaskDelay 100;
       EvLog LOG_INFO TAG "Setting up line coding";
       EvLineCodingGet (open_hdl e) ESP_OK;
       EvLineCodingSet (open_hdl e)
         {| dwDTERate := 115200; bCharFormat := 1;
            bParityType := 0; bDataBits := 8 |} ESP_OK;
       EvLineCodingGet (open_hdl e) ESP_OK;
       EvLogLineCoding (get2_line_coding e);
       EvSetControlLineState (open_hdl e) true false ESP_OK;
       EvLog LOG_INFO TAG "Connected CDC ACM device 0x%04X:0x%04X..."] ∧
    (device_disconnected_sem (env s) = false →
       app_main_wake s' = Done Connected s').
Proof.
  destruct e as [o h g1 lc1 st g2 lc2 ctl]. simpl.
  intros -> -> -> -> ->.
  eexists. split; [run_lifecycle; reflexivity|].
  split; [simpl; run_lifecycle; reflexivity|].
  simpl. split; [done|]. split; [by rewrite <- !app_assoc|].
  intros Hsem. unfold app_main_wake. simpl.
  destruct h as [h|]; simpl; by rewrite Hsem.
Qed.

Lemma app_main_configures_then_connects_witness :
  ∃ s' : state,
    app_main_loop_body (session_ok 1%positive) (initial_state 63) = Done Connected s' ∧
    cdc_dev s' = Some 1%positive ∧
    app_main_wake s' = Done Connected s'.
Proof.
  destruct (app_main_configures_then_connects (session_ok 1%positive) []
              (initial_state 63) eq_refl eq_refl eq_refl eq_refl eq_refl)
    as (s' & Hrun & _ & Hdev & _ & Hwait).
  exists s'. split; [exact Hrun|]. split; [exact Hdev|exact (Hwait eq_refl)].
Defined.

Lemma app_main_loop_body_opens_first (e : session_env) (s : state) :
  ∃ tail : list event,
    trace (outcome_state (app_main_loop_body e s))
    = trace s
        ++ [EvLog LOG_INFO TAG "Opening CDC ACM device 0x%04X:0x%04X...";
            EvOpen MD9600_USB_DEVICE_VID MD9600_USB_DEVICE_PID
              (open_hdl e) (open_ret e)]
        ++ tail.
Proof.
  destruct e as [o h g1 lc1 st g2 lc2 ctl]. run_lifecycle.
  destruct (decide (ESP_OK ≠ o)); simpl;
    [eexists; rewrite <- !app_assoc; simpl; reflexivity|].
  destruct (decide (g1 = ESP_OK)); simpl;
    [|eexists; rewrite <- !app_assoc; simpl; reflexivity].
  destruct (decide (st = ESP_OK)); simpl;
    [|eexists; rewrite <- !app_assoc; simpl; reflexivity].
  destruct (decide (g2 = ESP_OK)); simpl;
    [|eexists; rewrite <- !app_assoc; simpl; reflexivity].
  destruct (decide (ctl = ESP_OK)); simpl;
    eexists; rewrite <- !app_assoc; simpl; reflexivity.
Qed.

(** C9: when the open succeeded, a failure reported by a line-coding get,
    by the line-coding set or by the set-control-line-state call aborts the
    whole process (the loop does not go back to its top); a failed open is
    logged and the loop goes straight to its next turn, which starts with
    the next open. *)
Theorem app_main_config_failure_aborts_open_failure_retries
    (e : session_env) (rest : list session_env) (s : state) :
  (open_ret e = ESP_OK →
   get1_ret e ≠ ESP_OK ∨ set_ret e ≠ ESP_OK ∨ get2_ret e ≠ ESP_OK
     ∨ ctl_ret e ≠ ESP_OK →
   ∃ s' : state,
     app_main_loop_body e s = Aborted s' ∧
     app_main_loop (e :: rest) s = Aborted s' ∧
     last (trace s') = Some EvAbort)
  ∧
  (open_ret e ≠ ESP_OK →
   ∃ s' : state,
     app_main_loop_body e s = Done Idle s' ∧
     trace s' = trace s ++
       [EvLog LOG_INFO TAG "Opening CDC ACM device 0x%04X:0x%04X...";
        EvOpen MD9600_USB_DEVICE_VID MD9600_USB_DEVICE_PID
          (open_hdl e) (open_ret e);
        EvLog LOG_INFO TAG "Failed to open device"] ∧
     app_main_loop (e :: rest) s = app_main_loop rest s' ∧
     ∀ e2 : session_env, ∃ tail : list event,
       trace (outcome_state (app_main_loop_body e2 s'))
       = trace s'
           ++ [EvLog LOG_INFO TAG "Opening CDC ACM device 0x%04X:0x%04X...";
               EvOpen MD9600_USB_DEVICE_VID MD9600_USB_DEVICE_PID
                 (open_hdl e2) (open_ret e2)]
           ++ tail).
Proof.
  destruct e as [o h g1 lc1 st g2 lc2 ctl]. simpl. split.
  - intros -> Hfail.
    assert (Hbody : ∃ s' : state,
              app_main_loop_body
                (mk_session_env ESP_OK h g1 lc1 st g2 lc2 ctl) s = Aborted s'
              ∧ last (trace s') = Some EvAbort).
    { run_lifecycle.
      destruct (decide (g1 = ESP_OK)) as [->|?]; simpl;
        [|eexists; split; [reflexivity|simpl; apply last_snoc]].
      destruct (decide (st = ESP_OK)) as [->|?]; simpl;
        [|eexists; split; [reflexivity|simpl; apply last_snoc]].
      destruct (decide (g2 = ESP_OK)) as [->|?]; simpl;
        [|eexists; split; [reflexivity|simpl; apply last_snoc]].
      destruct (decide (ctl = ESP_OK)) as [->|?]; simpl;
        [|eexists; split; [reflexivity|simpl; apply last_snoc]].
      destruct Hfail as [?|[?|[?|?]]]; done. }
    destruct Hbody as (s' & Hrun & Hlast). exists s'.
    split; [exact Hrun|]. split; [|exact Hlast].
    simpl. unfold mbind at 1, M_bind at 1. by rewrite Hrun.
  - intros Hopen.
    assert (Hrun : app_main_loop_body
                     (mk_session_env o h g1 lc1 st g2 lc2 ctl) s
                   = Done Idle
                       (mk_state (rx_mbuf s) (echo_mbuf s) h
                          (apply_event
                             (EvOpen MD9600_USB_DEVICE_VID MD9600_USB_DEVICE_PID h o)
                             (env s))
                          (trace s ++
                             [EvLog LOG_INFO TAG "Opening CDC ACM device 0x%04X:0x%04X...";
                              EvOpen MD9600_USB_DEVICE_VID MD9600_USB_DEVICE_PID h o;
                              EvLog LOG_INFO TAG "Failed to open device"]))).
    { run_lifecycle. rewrite decide_True by congruence. simpl.
      by rewrite <- !app_assoc. }
    eexists. split; [exact Hrun|]. simpl. split; [done|].
    split; [unfold mbind at 1, M_bind at 1; by rewrite Hrun|].
    intros e2. apply app_main_loop_body_opens_first.
Qed.

Lemma app_main_config_failure_aborts_open_failure_retries_witness :
  (∃ s' : state,
     app_main_loop_body
       (mk_session_env ESP_OK (Some 1%positive) ESP_OK (mk_line_coding 9600 0 0 8)
          0x105 ESP_OK (mk_line_coding 9600 0 0 8) ESP_OK)
       (initial_state 63) = Aborted s')
  ∧
  (∃ s' : state,
     app_main_loop_body
       (mk_session_env 0x105 None ESP_OK (mk_line_coding 9600 0 0 8)
          ESP_OK ESP_OK (mk_line_coding 9600 0 0 8) ESP_OK)
       (initial_state 63) = Done Idle s').
Proof.
  assert (Hne : (0x105 : esp_err_t) ≠ ESP_OK) by (intros H; discriminate H).
  split.
  - destruct (proj1 (app_main_config_failure_aborts_open_failure_retries
               (mk_session_env ESP_OK (Some 1%positive) ESP_OK
                  (mk_line_coding 9600 0 0 8) 0x105 ESP_OK
                  (mk_line_coding 9600 0 0 8) ESP_OK) [] (initial_state 63))
               eq_refl (or_intror (or_introl Hne)))
      as (s' & Hrun & _).
    exists s'. exact Hrun.
  - destruct (proj2 (app_main_config_failure_aborts_open_failure_retries
               (mk_session_env 0x105 None ESP_OK (mk_line_coding 9600 0 0 8)
                  ESP_OK ESP_OK (mk_line_coding 9600 0 0 8) ESP_OK)
               [] (initial_state 63))
               Hne)
      as (s' & Hrun & _).
    exists s'. exact Hrun.
Defined.

(** * Further properties of the code *)

(** ** [handle_rx] beyond the claims *)

Lemma filled_lookup_lt (dst data : list byte) (i : nat) :
  (i < length data)%nat → filled dst data !! i = padded data !! i.
Proof.
  intros Hi. unfold filled. by rewrite lookup_app_l by (rewrite padded_length; lia).
Qed.

Lemma padded_id (data : list byte) : NUL ∉ data → padded data = data.
Proof.
  intros Hno. unfold padded. rewrite c_str_id by done.
  by rewrite Nat.sub_diag, app_nil_r.
Qed.

(** The string [handle_rx] leaves in its buffer, as a function of the
    chunk alone. *)
Lemma handle_rx_final_string (dst data : list byte) :
  (2 ≤ length data < length dst)%nat →
  c_str (if decide (filled dst data !! (length data - 2)%nat = Some CR)
         then <[(length data - 2)%nat := NUL]> (filled dst data)
         else filled dst data)
  = if decide (padded data !! (length data - 2)%nat = Some CR)
    then take (length data - 2) data
    else c_str data.
Proof.
  intros [H2 Hlt]. rewrite filled_lookup_lt by lia.
  destruct (decide (padded data !! (length data - 2)%nat = Some CR)) as [Hcr|Hcr].
  - assert (Hpos : (length data - 2 < length (c_str data))%nat).
    { apply (filled_lookup_cr dst); [lia|]. by rewrite filled_lookup_lt by lia. }
    rewrite c_str_insert_nul by (rewrite filled_c_str; lia).
    apply take_filled. lia.
  - apply filled_c_str.
Qed.

(** X1: what [handle_rx] sends and logs, and the string it leaves in its
    buffer, depend on the chunk only and not on what earlier calls left in
    the static buffer. *)
Theorem handle_rx_independent_of_history (cfg : nat) (send_ret : esp_err_t)
    (data : list byte) (s1 s2 : state) :
  wf_state cfg s1 → wf_state cfg s2 →
  (2 ≤ length data ≤ capacity cfg - 1)%nat →
  ∃ (evs : list event) (s1' s2' : state),
    handle_rx send_ret data s1 = Done true s1' ∧
    handle_rx send_ret data s2 = Done true s2' ∧
    trace s1' = trace s1 ++ evs ∧
    trace s2' = trace s2 ++ evs ∧
    c_str (rx_mbuf s1') = c_str (rx_mbuf s2').
Proof.
  intros Hwf1 Hwf2 [H2 Hfit].
  pose proof (wf_state_sizes _ _ Hwf1) as (Hrx1 & _ & Hsz).
  pose proof (wf_state_sizes _ _ Hwf2) as (Hrx2 & _ & _).
  assert (Hlt1 : (2 ≤ length data < length (rx_mbuf s1))%nat)
    by (rewrite Hrx1; unfold capacity in *; lia).
  assert (Hlt2 : (2 ≤ length data < length (rx_mbuf s2))%nat)
    by (rewrite Hrx2; unfold capacity in *; lia).
  eexists _, _, _.
  split; [apply handle_rx_run; lia|].
  split; [apply handle_rx_run; lia|].
  simpl. rewrite !handle_rx_final_string by done.
  split; [reflexivity|]. split; reflexivity.
Qed.

Lemma handle_rx_independent_of_history_witness :
  wf_state 63 (initial_state 63) ∧
  wf_state 63 (outcome_state
                 (handle_rx ESP_OK (bytes "a long earlier line") (initial_state 63))) ∧
  (2 ≤ length (bytes "OK") ≤ capacity 63 - 1)%nat ∧
  ∃ (s1' s2' : state),
    handle_rx ESP_OK (bytes "OK") (initial_state 63) = Done true s1' ∧
    handle_rx ESP_OK (bytes "OK")
      (outcome_state
         (handle_rx ESP_OK (bytes "a long earlier line") (initial_state 63)))
      = Done true s2' ∧
    c_str (rx_mbuf s1') = c_str (rx_mbuf s2').
Proof.
  assert (Hwf1 : wf_state 63 (initial_state 63))
    by (apply wf_initial_state; reflexivity).
  assert (Hwf2 : wf_state 63 (outcome_state
            (handle_rx ESP_OK (bytes "a long earlier line") (initial_state 63))))
    by (split; [reflexivity|split; reflexivity]).
  assert (Hlen : (2 ≤ length (bytes "OK") ≤ capacity 63 - 1)%nat)
    by (vm_compute; lia).
  split; [exact Hwf1|]. split; [exact Hwf2|]. split; [exact Hlen|].
  destruct (handle_rx_independent_of_history 63 ESP_OK (bytes "OK") _ _
              Hwf1 Hwf2 Hlen) as (evs & s1' & s2' & Hr1 & Hr2 & _ & _ & Hstr).
  exists s1', s2'. split; [exact Hr1|]. split; [exact Hr2|exact Hstr].
Defined.

(** X2: for a chunk without ['\0'] the trimming looks at the byte at
    position [L-2] only: when it is a carriage return the chunk loses its
    last two bytes, whatever the last byte is; otherwise the chunk is kept
    whole, also when it ends in a carriage return that no line feed
    follows. *)
Theorem handle_rx_trims_on_second_last_byte (cfg : nat) (send_ret : esp_err_t)
    (data : list byte) (s : state) :
  wf_state cfg s →
  NUL ∉ data →
  (2 ≤ length data ≤ capacity cfg - 1)%nat →
  ∃ s' : state,
    handle_rx send_ret data s = Done true s' ∧
    c_str (rx_mbuf s')
    = (if decide (data !! (length data - 2)%nat = Some CR)
       then take (length data - 2) data
       else data) ∧
    last (trace s') = Some (EvLogStr LOG_INFO "UART->BLE" (c_str (rx_mbuf s'))).
Proof.
  intros Hwf Hno [H2 Hfit].
  pose proof (wf_state_sizes _ _ Hwf) as (Hrx & _ & Hsz).
  assert (Hlt : (2 ≤ length data < length (rx_mbuf s))%nat)
    by (rewrite Hrx; unfold capacity in *; lia).
  eexists. split; [apply handle_rx_run; lia|]. simpl.
  rewrite handle_rx_final_string by done.
  rewrite padded_id, c_str_id by done. split; [done|].
  rewrite app_comm_cons, app_assoc. apply last_snoc.
Qed.

Lemma handle_rx_trims_on_second_last_byte_witness :
  wf_state 63 (initial_state 63) ∧
  (NUL ∉ bytes "A" ++ [CR] ++ bytes "B") ∧
  (2 ≤ length (bytes "A" ++ [CR] ++ bytes "B") ≤ capacity 63 - 1)%nat ∧
  ∃ s' : state,
    handle_rx ESP_OK (bytes "A" ++ [CR] ++ bytes "B") (initial_state 63)
      = Done true s' ∧
    c_str (rx_mbuf s') = bytes "A".
Proof.
  assert (Hwf : wf_state 63 (initial_state 63))
    by (apply wf_initial_state; reflexivity).
  assert (Hno : NUL ∉ bytes "A" ++ [CR] ++ bytes "B").
  { intros Hin. apply list_elem_of_In in Hin. simpl in Hin.
    destruct Hin as [H|[H|[H|H]]];
      [discriminate H|discriminate H|discriminate H|exact H]. }
  assert (Hlen : (2 ≤ length (bytes "A" ++ [CR] ++ bytes "B") ≤ capacity 63 - 1)%nat)
    by (vm_compute; lia).
  split; [exact Hwf|]. split; [exact Hno|]. split; [exact Hlen|].
  destruct (handle_rx_trims_on_second_last_byte 63 ESP_OK
              (bytes "A" ++ [CR] ++ bytes "B") (initial_state 63) Hwf Hno Hlen)
    as (s' & Hrun & Hstr & _).
  exists s'. split; [exact Hrun|exact Hstr].
Defined.

(** X3: a failed wireless send is not propagated by [handle_rx]: the
    callback still returns [true] and leaves the same buffer as after a
    successful send; the only difference is one warning in the log. *)
Theorem handle_rx_send_failure_only_logged (cfg : nat) (send_ret : esp_err_t)
    (data : list byte) (s : state) :
  wf_state cfg s →
  (2 ≤ length data ≤ capacity cfg - 1)%nat →
  send_ret ≠ ESP_OK →
  ∃ (s_ok s_fail : state) (line logged : list byte),
    handle_rx ESP_OK data s = Done true s_ok ∧
    handle_rx send_ret data s = Done true s_fail ∧
    rx_mbuf s_fail = rx_mbuf s_ok ∧
    trace s_ok = trace s ++ [EvNordicUartSend line ESP_OK;
                             EvLogStr LOG_INFO "UART->BLE" logged] ∧
    trace s_fail = trace s ++ [EvNordicUartSend line send_ret;
                               EvLog LOG_WARN "UART->BLE" "Failed to sent to BLE UART";
                               EvLogStr LOG_INFO "UART->BLE" logged].
Proof.
  intros Hwf [H2 Hfit] Hfail.
  pose proof (wf_state_sizes _ _ Hwf) as (Hrx & _ & Hsz).
  assert (Hlt : (2 ≤ length data < length (rx_mbuf s))%nat)
    by (rewrite Hrx; unfold capacity in *; lia).
  eexists _, _, _, _.
  split; [apply handle_rx_run; lia|].
  split; [apply handle_rx_run; lia|].
  simpl.
  destruct (decide (ESP_OK ≠ send_ret)) as [_|Hn];
    [done|exfalso; apply Hn; congruence].
Qed.

Lemma handle_rx_send_failure_only_logged_witness :
  wf_state 63 (initial_state 63) ∧
  (2 ≤ length (bytes "OK") ≤ capacity 63 - 1)%nat ∧
  (0x103 : esp_err_t) ≠ ESP_OK ∧
  ∃ s_fail : state,
    handle_rx 0x103 (bytes "OK") (initial_state 63) = Done true s_fail ∧
    trace s_fail = [EvNordicUartSend (bytes "OK") 0x103;
                    EvLog LOG_WARN "UART->BLE" "Failed to sent to BLE UART";
                    EvLogStr LOG_INFO "UART->BLE" (bytes "OK")].
Proof.
  assert (Hwf : wf_state 63 (initial_state 63))
    by (apply wf_initial_state; reflexivity).
  assert (Hlen : (2 ≤ length (bytes "OK") ≤ capacity 63 - 1)%nat)
    by (vm_compute; lia).
  assert (Hne : (0x103 : esp_err_t) ≠ ESP_OK) by (intros H; discriminate H).
  split; [exact Hwf|]. split; [exact Hlen|]. split; [exact Hne|].
  destruct (handle_rx_send_failure_only_logged 63 0x103 (bytes "OK")
              (initial_state 63) Hwf Hlen Hne)
    as (s_ok & s_fail & line & logged & Hok & Hfail & _ & Htr_ok & Htr_fail).
  exists s_fail. split; [exact Hfail|].
  assert (Hcomp : handle_rx ESP_OK (bytes "OK") (initial_state 63)
                  = Done true (outcome_state
                      (handle_rx ESP_OK (bytes "OK") (initial_state 63))))
    by (vm_compute; reflexivity).
  rewrite Hcomp in Hok. injection Hok as <-.
  vm_compute in Htr_ok. injection Htr_ok as <- <-.
  exact Htr_fail.
Defined.


(** ** [echoTask] beyond the claims *)



Lemma tx_payloads_app (l k : list event) :
  tx_payloads (l ++ k) = tx_payloads l ++ tx_payloads k.
Proof. apply omap_app. Qed.

Lemma returned_items_app (l k : list event) :
  returned_items (l ++ k) = (returned_items l + returned_items k)%nat.
Proof. unfold returned_items. by rewrite filter_app, length_app. Qed.

(** What one turn of [echoTask] adds to the trace, for an item that fits. *)
Lemma echoTask_body_observed (cfg : nat) (e : echo_env) (s : state) :
  wf_state cfg s → item_fits cfg e →
  ∃ (evs : list event) (s' : state),
    echoTask_body e s = Done tt s' ∧ wf_state cfg s' ∧
    rx_mbuf s' = rx_mbuf s ∧ cdc_dev s' = cdc_dev s ∧ env s' = env s ∧
    trace s' = trace s ++ evs ∧
    tx_payloads evs = c_str <$> option_list (dequeued_item e) ∧
    returned_items evs = length (option_list (dequeued_item e)).
Proof.
  intros Hwf Hfit. pose proof Hwf as (Hrx & Hecho & Hobj).
  unfold dequeued_item.
  destruct (nordic_uart_rx_buf_handle e) eqn:Hh.
  - destruct (ringbuffer_item e) as [item|] eqn:Hitem.
    + assert (Hlt : (length item < length (echo_mbuf s))%nat).
      { rewrite Hecho. unfold capacity. specialize (Hfit item Hitem). lia. }
      eexists _, _. split; [by apply echoTask_body_run|]. simpl.
      split; [split_and!; simpl; [done|by rewrite filled_length|done]|].
      split_and!; [done..|reflexivity| |];
        destruct (decide (ESP_OK ≠ tx_ret e)); reflexivity.
    + unfold echoTask_body. rewrite Hh, Hitem. exists [EvRingbufferReceive None].
      eexists. split; [reflexivity|]. simpl. split_and!; done.
  - unfold echoTask_body. rewrite Hh. exists [EvTaskDelay 1000].
    eexists. split; [reflexivity|]. simpl. split_and!; done.
Qed.

(** X6: over any number of turns with items that fit, the pump hands the
    dequeued items to the wired send in the order of their arrival, each as
    its bytes up to the first ['\0'], and returns every dequeued item to the
    ring buffer exactly once, whether its send succeeded or not.  It changes
    neither [cdc_dev] nor the buffer of [handle_rx] nor the semaphore. *)
Theorem echoTask_forwards_in_order (cfg : nat) (envs : list echo_env)
    (s : state) :
  wf_state cfg s → items_fit cfg envs →
  ∃ (evs : list event) (s' : state),
    echoTask envs s = Done tt s' ∧ wf_state cfg s' ∧
    rx_mbuf s' = rx_mbuf s ∧ cdc_dev s' = cdc_dev s ∧ env s' = env s ∧
    trace s' = trace s ++ evs ∧
    tx_payloads evs = c_str <$> dequeued_items envs ∧
    returned_items evs = length (dequeued_items envs).
Proof.
  revert s. induction envs as [|e envs IH]; intros s Hwf Hfit.
  - exists [], s. split_and!; try done. by rewrite app_nil_r.
  - apply Forall_cons in Hfit as [He Hrest].
    destruct (echoTask_body_observed cfg e s Hwf He)
      as (evs1 & s1 & Hrun1 & Hwf1 & Hrx1 & Hdev1 & Henv1 & Htr1 & Htx1 & Hret1).
    destruct (IH s1 Hwf1 Hrest)
      as (evs2 & s2 & Hrun2 & Hwf2 & Hrx2 & Hdev2 & Henv2 & Htr2 & Htx2 & Hret2).
    exists (evs1 ++ evs2), s2. split_and!.
    + simpl. unfold mbind at 1, M_bind at 1. by rewrite Hrun1.
    + done.
    + congruence.
    + congruence.
    + congruence.
    + by rewrite Htr2, Htr1, app_assoc.
    + rewrite tx_payloads_app, Htx1, Htx2. unfold dequeued_items. simpl.
      destruct (dequeued_item e); simpl; done.
    + rewrite returned_items_app, Hret1, Hret2. unfold dequeued_items. simpl.
      destruct (dequeued_item e); simpl; done.
Qed.

Lemma echoTask_forwards_in_order_witness :
  wf_state 63 (initial_state 63) ∧
  items_fit 63 [mk_echo_env true (Some (bytes "AT" ++ [CR; LF])) 0x107;
                mk_echo_env false None ESP_OK;
                mk_echo_env true (Some [x41; NUL; x42]) ESP_OK] ∧
  ∃ (evs : list event) (s' : state),
    echoTask [mk_echo_env true (Some (bytes "AT" ++ [CR; LF])) 0x107;
              mk_echo_env false None ESP_OK;
              mk_echo_env true (Some [x41; NUL; x42]) ESP_OK]
      (initial_state 63) = Done tt s' ∧
    trace s' = evs ∧
    tx_payloads evs = [bytes "AT" ++ [CR; LF]; [x41]] ∧
    returned_items evs = 2%nat.
Proof.
  assert (Hwf : wf_state 63 (initial_state 63))
    by (apply wf_initial_state; reflexivity).
  assert (Hfit : items_fit 63
            [mk_echo_env true (Some (bytes "AT" ++ [CR; LF])) 0x107;
             mk_echo_env false None ESP_OK;
             mk_echo_env true (Some [x41; NUL; x42]) ESP_OK]).
  { repeat (apply Forall_cons_2 || apply Forall_nil_2);
      intros item Hitem; simpl in Hitem; simplify_eq; vm_compute; lia. }
  split; [exact Hwf|]. split; [exact Hfit|].
  destruct (echoTask_forwards_in_order 63 _ (initial_state 63) Hwf Hfit)
    as (evs & s' & Hrun & _ & _ & _ & _ & Htr & Htx & Hret).
  exists evs, s'. split; [exact Hrun|]. split; [exact Htr|].
  split; [exact Htx|exact Hret].
Defined.

(** ** [handle_event] and the [app_main] loop beyond the claims *)

(** X7: the semaphore can only be set by a disconnect event whose close
    succeeded: starting with an empty semaphore, it is set after
    [handle_event] exactly in that case.  Every other event is only logged,
    and no event makes the handler change [cdc_dev] or a line buffer. *)
Theorem handle_event_signals_only_on_disconnect
    (event : cdc_acm_host_dev_event_data_t) (close_ret : esp_err_t) (s : state) :
  device_disconnected_sem (env s) = false →
  (device_disconnected_sem (env (outcome_state (handle_event event close_ret s)))
     = true
   ↔ ∃ h, event = CDC_ACM_HOST_DEVICE_DISCONNECTED h ∧ close_ret = ESP_OK) ∧
  ((∀ h, event ≠ CDC_ACM_HOST_DEVICE_DISCONNECTED h) →
   ∃ lvl text,
     handle_event event close_ret s
     = Done tt (mk_state (rx_mbuf s) (echo_mbuf s) (cdc_dev s) (env s)
                  (trace s ++ [EvLog lvl TAG text]))) ∧
  cdc_dev (outcome_state (handle_event event close_ret s)) = cdc_dev s ∧
  rx_mbuf (outcome_state (handle_event event close_ret s)) = rx_mbuf s ∧
  echo_mbuf (outcome_state (handle_event event close_ret s)) = echo_mbuf s.
Proof.
  intros Hsem. destruct event as [err|st|nc|h]; run_lifecycle.
  - split_and!; [|eauto|done..]. rewrite Hsem. split; [done|].
    intros (h & Hh & _). discriminate Hh.
  - split_and!; [|eauto|done..]. rewrite Hsem. split; [done|].
    intros (h & Hh & _). discriminate Hh.
  - split_and!; [|eauto|done..]. rewrite Hsem. split; [done|].
    intros (h & Hh & _). discriminate Hh.
  - destruct (decide (close_ret = ESP_OK)) as [->|Hfail]; simpl.
    + split_and!; [|intros Hne; by destruct (Hne h)|done..].
      split; [eauto|done].
    + split_and!; [|intros Hne; by destruct (Hne h)|done..].
      rewrite ?Hsem. split; [done|]. intros (h' & _ & Hok). done.
Qed.

Lemma handle_event_signals_only_on_disconnect_witness :
  device_disconnected_sem (env connected_example) = false ∧
  device_disconnected_sem
    (env (outcome_state
            (handle_event (CDC_ACM_HOST_SERIAL_STATE 3) ESP_OK connected_example)))
  ≠ true.
Proof.
  split; [reflexivity|].
  intros Hset.
  destruct (proj1 (proj1 (handle_event_signals_only_on_disconnect
                     (CDC_ACM_HOST_SERIAL_STATE 3) ESP_OK connected_example
                     eq_refl)) Hset) as (h & Hh & _).
  discriminate Hh.
Defined.

(** X8: a disconnect does not reset the global [cdc_dev].  When the device
    held in [cdc_dev] disconnects, the handler closes it, and the next chunk
    that [echoTask] dequeues is still handed to the wired send with that
    closed handle. *)
Theorem echoTask_sends_on_closed_handle (cfg : nat) (h : handle)
    (e : echo_env) (item : list byte) (s : state) :
  wf_state cfg s →
  cdc_dev s = Some h →
  nordic_uart_rx_buf_handle e = true →
  ringbuffer_item e = Some item →
  (length item ≤ capacity cfg - 1)%nat →
  ∃ s1 s2 : state,
    handle_event (CDC_ACM_HOST_DEVICE_DISCONNECTED h) ESP_OK s = Done tt s1 ∧
    (h ∉ open_devices (env s1)) ∧
    cdc_dev s1 = Some h ∧
    echoTask_body e s1 = Done tt s2 ∧
    tx_payloads (trace s2) = tx_payloads (trace s) ++ [c_str item] ∧
    EvDataTxBlocking (Some h) (c_str item) USB_TX_TIMEOUT_MS (tx_ret e)
      ∈ trace s2.
Proof.
  intros Hwf Hdev Hh Hitem Hfit. pose proof Hwf as (Hrx & Hecho & Hobj).
  assert (Hlt : (length item < length (echo_mbuf s))%nat)
    by (rewrite Hecho; unfold capacity in *; lia).
  eexists _, _. split; [run_lifecycle; reflexivity|]. simpl.
  split; [intros [_ Hne]%elem_of_difference; apply Hne;
          by apply elem_of_singleton|].
  split; [done|].
  split; [by apply echoTask_body_run|]. simpl. rewrite Hdev. split.
  - unfold tx_payloads. rewrite !omap_app.
    destruct (decide (ESP_OK ≠ tx_ret e)); simpl;
      by rewrite ?app_nil_r, <- ?app_assoc.
  - rewrite !elem_of_app, !elem_of_cons. auto.
Qed.

Lemma echoTask_sends_on_closed_handle_witness :
  wf_state 63 connected_example ∧
  cdc_dev connected_example = Some 1%positive ∧
  (length (bytes "hi") ≤ capacity 63 - 1)%nat ∧
  ∃ s1 s2 : state,
    handle_event (CDC_ACM_HOST_DEVICE_DISCONNECTED 1%positive) ESP_OK
      connected_example = Done tt s1 ∧
    (1%positive ∉ open_devices (env s1)) ∧
    echoTask_body (mk_echo_env true (Some (bytes "hi")) 0x103) s1 = Done tt s2 ∧
    EvDataTxBlocking (Some 1%positive) (bytes "hi") 1000 0x103 ∈ trace s2.
Proof.
  assert (Hwf : wf_state 63 connected_example)
    by (split; [reflexivity|split; reflexivity]).
  assert (Hfit : (length (bytes "hi") ≤ capacity 63 - 1)%nat)
    by (vm_compute; lia).
  split; [exact Hwf|]. split; [reflexivity|]. split; [exact Hfit|].
  destruct (echoTask_sends_on_closed_handle 63 1%positive
              (mk_echo_env true (Some (bytes "hi")) 0x103) (bytes "hi")
              connected_example Hwf eq_refl eq_refl eq_refl Hfit)
    as (s1 & s2 & Hev & Hclosed & _ & Hrun & _ & Htx).
  exists s1, s2. split; [exact Hev|]. split; [exact Hclosed|].
  split; [exact Hrun|exact Htx].
Defined.

(** One statement at a time: how each primitive runs in front of the rest
    of a function body. *)
Lemma run_emit {B} (ev : event) (k : unit → M B) (s : state) :
  (emit ev ≫= k) s
  = k tt (mk_state (rx_mbuf s) (echo_mbuf s) (cdc_dev s)
            (apply_event ev (env s)) (trace s ++ [ev])).
Proof. reflexivity. Qed.

Lemma run_get_cdc_dev {B} (k : cdc_acm_dev_hdl_t → M B) (s : state) :
  (get_cdc_dev ≫= k) s = k (cdc_dev s) s.
Proof. reflexivity. Qed.

Lemma run_set_cdc_dev {B} (h : cdc_acm_dev_hdl_t) (k : unit → M B) (s : state) :
  (set_cdc_dev h ≫= k) s
  = k tt (mk_state (rx_mbuf s) (echo_mbuf s) h (env s) (trace s)).
Proof. reflexivity. Qed.

Lemma run_check_ok {B} (k : unit → M B) (s : state) :
  (ESP_ERROR_CHECK ESP_OK ≫= k) s = k tt s.
Proof. reflexivity. Qed.

Lemma run_check_failed {B} (err : esp_err_t) (k : unit → M B) (s : state) :
  err ≠ ESP_OK →
  (ESP_ERROR_CHECK err ≫= k) s
  = Aborted (mk_state (rx_mbuf s) (echo_mbuf s) (cdc_dev s) (env s)
               (trace s ++ [EvAbort])).
Proof.
  intros Hne. unfold ESP_ERROR_CHECK. by rewrite decide_False by done.
Qed.

Ltac run_step :=
  first [ rewrite run_emit
        | rewrite run_get_cdc_dev
        | rewrite run_set_cdc_dev
        | rewrite run_check_ok
        | rewrite run_check_failed by assumption ];
  cbv beta;
  cbn [rx_mbuf echo_mbuf cdc_dev env trace
       dwDTERate bCharFormat bParityType bDataBits].

Ltac run_turn :=
  unfold app_main_loop_body, ESP_LOGI;
  cbn [open_ret open_hdl get1_ret get1_line_coding set_ret get2_ret
       get2_line_coding ctl_ret];
  repeat run_step.

Lemma app_main_loop_body_connects (e : session_env) (s : state) :
  open_ret e = ESP_OK → get1_ret e = ESP_OK → set_ret e = ESP_OK →
  get2_ret e = ESP_OK → ctl_ret e = ESP_OK →
  app_main_loop_body e s
  = Done Connected
      (mk_state (rx_mbuf s) (echo_mbuf s) (open_hdl e)
         (apply_event
            (EvOpen MD9600_USB_DEVICE_VID MD9600_USB_DEVICE_PID (open_hdl e) ESP_OK)
            (env s))
         (trace s ++ connect_events e)).
Proof.
  destruct e as [o h g1 lc1 st g2 lc2 ctl]. simpl.
  intros -> -> -> -> ->. run_turn.
  rewrite decide_False by (intros Hne; by apply Hne).
  repeat run_step. unfold mret, M_ret.
  rewrite <- !app_assoc. reflexivity.
Qed.

Lemma app_main_loop_body_open_fails (e : session_env) (s : state) :
  open_ret e ≠ ESP_OK →
  app_main_loop_body e s
  = Done Idle
      (mk_state (rx_mbuf s) (echo_mbuf s) (open_hdl e) (env s)
         (trace s ++ failed_open_events e)).
Proof.
  destruct e as [o h g1 lc1 st g2 lc2 ctl]. simpl. intros Hfail. run_turn.
  rewrite decide_True by congruence.
  repeat run_step. unfold mret, M_ret.
  rewrite <- !app_assoc. simpl.
  destruct h; simpl; [by rewrite decide_False by done|done].
Qed.

(** X9: one whole session.  From an empty semaphore, a turn of the loop in
    which every call succeeds opens device [h] and blocks; the disconnect
    handler then closes [h] and gives the semaphore; [xSemaphoreTake]
    returns, empties the semaphore and the loop is back at its top.  At that
    point [h] is no longer open, every other open device is untouched, and
    [cdc_dev] still holds [h]. *)
Theorem app_main_session_cycle (e : session_env) (h : handle) (s : state) :
  open_ret e = ESP_OK → get1_ret e = ESP_OK → set_ret e = ESP_OK →
  get2_ret e = ESP_OK → ctl_ret e = ESP_OK →
  open_hdl e = Some h →
  device_disconnected_sem (env s) = false →
  ∃ s1 s2 s3 : state,
    app_main_loop_body e s = Done Connected s1 ∧
    h ∈ open_devices (env s1) ∧
    app_main_wake s1 = Done Connected s1 ∧
    handle_event (CDC_ACM_HOST_DEVICE_DISCONNECTED h) ESP_OK s1 = Done tt s2 ∧
    app_main_wake s2 = Done Idle s3 ∧
    device_disconnected_sem (env s3) = false ∧
    open_devices (env s3) = open_devices (env s) ∖ {[h]} ∧
    cdc_dev s3 = Some h ∧
    trace s3 = trace s ++ connect_events e
                 ++ [EvLog LOG_INFO TAG "Device suddenly disconnected";
                     EvClose h ESP_OK; EvSemaphoreGive; EvSemaphoreTake].
Proof.
  intros Ho Hg1 Hst Hg2 Hctl Hh Hsem.
  eexists _, _, _.
  split; [by apply app_main_loop_body_connects|].
  rewrite Hh. simpl.
  split; [apply elem_of_union_l; by apply elem_of_singleton|].
  split; [unfold app_main_wake; simpl; by rewrite Hsem|].
  split; [run_lifecycle; reflexivity|].
  split; [run_lifecycle; reflexivity|]. simpl.
  split; [done|]. split; [|split; [done|]].
  - apply set_eq. intros x.
    rewrite !elem_of_difference, elem_of_union, elem_of_singleton. tauto.
  - by rewrite <- !app_assoc.
Qed.

Lemma app_main_session_cycle_witness :
  device_disconnected_sem (env (initial_state 63)) = false ∧
  ∃ s3 : state,
    app_main_wake
      (outcome_state
         (handle_event (CDC_ACM_HOST_DEVICE_DISCONNECTED 1%positive) ESP_OK
            connected_example)) = Done Idle s3 ∧
    device_disconnected_sem (env s3) = false ∧
    cdc_dev s3 = Some 1%positive.
Proof.
  split; [reflexivity|].
  destruct (app_main_session_cycle (session_ok 1%positive) 1%positive
              (initial_state 63) eq_refl eq_refl eq_refl eq_refl eq_refl
              eq_refl eq_refl)
    as (s1 & s2 & s3 & Hrun & _ & _ & Hev & Hwake & Hsem & _ & Hdev & _).
  exists s3.
  assert (Hs1 : s1 = connected_example).
  { unfold connected_example. rewrite Hrun. reflexivity. }
  rewrite Hs1 in Hev. rewrite Hev. simpl.
  split; [exact Hwake|]. split; [exact Hsem|exact Hdev].
Defined.

(** X10: as long as the open fails the loop retries it at once: over any
    number of failing turns it never aborts and never blocks, it stays at the
    top of the loop, and all it does per turn is log, call the open and log
    the failure; there is no delay between two attempts.  The line buffers
    and the libraries' objects are untouched. *)
Theorem app_main_loop_retries_failed_open (envs : list session_env)
    (s : state) :
  Forall (λ e, open_ret e ≠ ESP_OK) envs →
  ∃ s' : state,
    app_main_loop envs s = Done Idle s' ∧
    trace s' = trace s ++ concat (failed_open_events <$> envs) ∧
    cdc_dev s' = default (cdc_dev s) (open_hdl <$> last envs) ∧
    rx_mbuf s' = rx_mbuf s ∧ echo_mbuf s' = echo_mbuf s ∧ env s' = env s.
Proof.
  revert s. induction envs as [|e envs IH]; intros s Hall.
  - exists s. simpl. split_and!; try done. by rewrite app_nil_r.
  - apply Forall_cons in Hall as [He Hrest].
    destruct (IH (mk_state (rx_mbuf s) (echo_mbuf s) (open_hdl e) (env s)
                    (trace s ++ failed_open_events e)) Hrest)
      as (s' & Hrun & Htr & Hdev & Hrx & Hecho & Henv).
    exists s'. split_and!.
    + simpl. unfold mbind at 1, M_bind at 1.
      by rewrite app_main_loop_body_open_fails.
    + rewrite Htr. simpl. by rewrite <- !app_assoc.
    + rewrite Hdev. destruct envs as [|e' envs']; [done|].
      change (last (e :: e' :: envs')) with (last (e' :: envs')).
      destruct (last (e' :: envs')) as [x|] eqn:Hlast; [done|].
      by apply last_None in Hlast.
    + done.
    + done.
    + done.
Qed.

Lemma app_main_loop_retries_failed_open_witness :
  Forall (λ e, open_ret e ≠ ESP_OK)
    (replicate 3 (mk_session_env 0x105 None ESP_OK (mk_line_coding 9600 0 0 8)
                    ESP_OK ESP_OK (mk_line_coding 9600 0 0 8) ESP_OK)) ∧
  ∃ s' : state,
    app_main_loop
      (replicate 3 (mk_session_env 0x105 None ESP_OK (mk_line_coding 9600 0 0 8)
                      ESP_OK ESP_OK (mk_line_coding 9600 0 0 8) ESP_OK))
      (initial_state 63) = Done Idle s' ∧
    length (trace s') = 9%nat.
Proof.
  assert (Hall : Forall (λ e, open_ret e ≠ ESP_OK)
            (replicate 3 (mk_session_env 0x105 None ESP_OK
                            (mk_line_coding 9600 0 0 8) ESP_OK ESP_OK
                            (mk_line_coding 9600 0 0 8) ESP_OK))).
  { apply Forall_replicate. simpl. intros H. discriminate H. }
  split; [exact Hall|].
  destruct (app_main_loop_retries_failed_open _ (initial_state 63) Hall)
    as (s' & Hrun & Htr & _).
  exists s'. split; [exact Hrun|]. rewrite Htr. reflexivity.
Defined.

(** X11: the loop connects on the first turn whose open succeeds: after
    any number of failed opens, a turn in which every call succeeds leaves
    [app_main] blocked in [xSemaphoreTake] with the new handle in [cdc_dev],
    and the answers prepared for later turns are not consumed. *)
Theorem app_main_loop_connects_after_retries (fails : list session_env)
    (e : session_env) (rest : list session_env) (s : state) :
  Forall (λ e, open_ret e ≠ ESP_OK) fails →
  open_ret e = ESP_OK → get1_ret e = ESP_OK → set_ret e = ESP_OK →
  get2_ret e = ESP_OK → ctl_ret e = ESP_OK →
  ∃ s' : state,
    app_main_loop (fails ++ e :: rest) s = Done Connected s' ∧
    cdc_dev s' = open_hdl e ∧
    trace s' = trace s ++ concat (failed_open_events <$> fails)
                 ++ connect_events e.
Proof.
  intros Hall Ho Hg1 Hst Hg2 Hctl. revert s.
  induction fails as [|f fails IH]; intros s.
  - eexists. simpl. unfold mbind at 1, M_bind at 1.
    rewrite app_main_loop_body_connects by done. simpl.
    split; [reflexivity|]. simpl. done.
  - apply Forall_cons in Hall as [Hf Hrest].
    destruct (IH Hrest (mk_state (rx_mbuf s) (echo_mbuf s) (open_hdl f) (env s)
                          (trace s ++ failed_open_events f)))
      as (s' & Hrun & Hdev & Htr).
    exists s'. split_and!.
    + simpl. unfold mbind at 1, M_bind at 1.
      by rewrite app_main_loop_body_open_fails.
    + done.
    + rewrite Htr. simpl. by rewrite <- !app_assoc.
Qed.

Lemma app_main_loop_connects_after_retries_witness :
  Forall (λ e, open_ret e ≠ ESP_OK)
    [mk_session_env 0x105 None ESP_OK (mk_line_coding 9600 0 0 8)
       ESP_OK ESP_OK (mk_line_coding 9600 0 0 8) ESP_OK] ∧
  ∃ s' : state,
    app_main_loop
      ([mk_session_env 0x105 None ESP_OK (mk_line_coding 9600 0 0 8)
          ESP_OK ESP_OK (mk_line_coding 9600 0 0 8) ESP_OK]
         ++ session_ok 1%positive :: [session_ok 2%positive])
      (initial_state 63) = Done Connected s' ∧
    cdc_dev s' = Some 1%positive.
Proof.
  assert (Hall : Forall (λ e, open_ret e ≠ ESP_OK)
            [mk_session_env 0x105 None ESP_OK (mk_line_coding 9600 0 0 8)
               ESP_OK ESP_OK (mk_line_coding 9600 0 0 8) ESP_OK]).
  { apply Forall_cons_2; [|apply Forall_nil_2]. simpl. intros H. discriminate H. }
  split; [exact Hall|].
  destruct (app_main_loop_connects_after_retries _ (session_ok 1%positive)
              [session_ok 2%positive] (initial_state 63) Hall
              eq_refl eq_refl eq_refl eq_refl eq_refl)
    as (s' & Hrun & Hdev & _).
  exists s'. split; [exact Hrun|exact Hdev].
Defined.

Ltac find_call :=
  intros *; rewrite !elem_of_cons, elem_of_nil; intros Hin;
  repeat (destruct Hin as [Hin|Hin]);
  first [ discriminate Hin
        | contradiction
        | inversion Hin; subst; split_and!; reflexivity ].

Ltac settle_turn :=
  repeat run_step; unfold mret, M_ret; cbn [outcome_state trace];
  split; [done|]; eexists;
  split; [rewrite <- !app_assoc; cbn [app]; reflexivity|];
  split; find_call.

(** X12: the configuration is issued in a fixed order and stops at the
    first failure.  Whatever the driver answers, a turn of the loop never
    faults; a line-coding set is issued only after a successful open and a
    successful first get, and it always carries 115200, 8 data bits, parity
    0 and stop-bit field 1, whatever line coding the first get reported; the
    control-line state is set only after both gets and the set succeeded,
    and always with DTR on and RTS off. *)
Theorem app_main_configuration_order (e : session_env) (s : state) :
  (∀ s', app_main_loop_body e s ≠ Fault s') ∧
  ∃ evs : list event,
    trace (outcome_state (app_main_loop_body e s)) = trace s ++ evs ∧
    (∀ hdl lc r, EvLineCodingSet hdl lc r ∈ evs →
       lc = {| dwDTERate := 115200; bCharFormat := 1;
               bParityType := 0; bDataBits := 8 |} ∧
       hdl = open_hdl e ∧ r = set_ret e ∧
       open_ret e = ESP_OK ∧ get1_ret e = ESP_OK) ∧
    (∀ hdl dtr rts r, EvSetControlLineState hdl dtr rts r ∈ evs →
       dtr = true ∧ rts = false ∧ hdl = open_hdl e ∧
       get1_ret e = ESP_OK ∧ set_ret e = ESP_OK ∧ get2_ret e = ESP_OK).
Proof.
  destruct e as [o h g1 lc1 st g2 lc2 ctl]. run_turn.
  destruct (decide (ESP_OK ≠ o)) as [Ho|Ho]; [settle_turn|].
  assert (o = ESP_OK) as ->
    by (destruct (decide (o = ESP_OK)) as [|Hne]; [done|];
        exfalso; apply Ho; congruence).
  destruct (decide (g1 = ESP_OK)) as [->|Hg1]; [|settle_turn].
  destruct (decide (st = ESP_OK)) as [->|Hst]; [|settle_turn].
  destruct (decide (g2 = ESP_OK)) as [->|Hg2]; [|settle_turn].
  destruct (decide (ctl = ESP_OK)) as [->|Hctl]; settle_turn.
Qed.

(** ** The two directions together *)

Lemma perm_swap_tail {A} (l a b : list A) : (l ++ a) ++ b ≡ₚ (l ++ b) ++ a.
Proof. rewrite <- !app_assoc. apply Permutation_app_head, Permutation_app_comm. Qed.

(** X13: the two pumps do not interfere.  [handle_rx] and a turn of
    [echoTask] work on separate buffers, so running the receive callback
    before or after a turn of the pump gives the same buffers, the same
    [cdc_dev] and library objects, the same payload on the wired send and
    the same calls up to their order. *)
Theorem handle_rx_echoTask_commute (cfg : nat) (send_ret : esp_err_t)
    (data : list byte) (e : echo_env) (item : list byte) (s : state) :
  wf_state cfg s →
  (2 ≤ length data ≤ capacity cfg - 1)%nat →
  nordic_uart_rx_buf_handle e = true →
  ringbuffer_item e = Some item →
  (length item ≤ capacity cfg - 1)%nat →
  ∃ s1 s12 s2 s21 : state,
    handle_rx send_ret data s = Done true s1 ∧
    echoTask_body e s1 = Done tt s12 ∧
    echoTask_body e s = Done tt s2 ∧
    handle_rx send_ret data s2 = Done true s21 ∧
    rx_mbuf s12 = rx_mbuf s21 ∧ echo_mbuf s12 = echo_mbuf s21 ∧
    cdc_dev s12 = cdc_dev s21 ∧ env s12 = env s21 ∧
    tx_payloads (trace s12) = tx_payloads (trace s21) ∧
    trace s12 ≡ₚ trace s21.
Proof.
  intros Hwf [H2 Hfit] Hh Hitem Hitfit.
  pose proof (wf_state_sizes _ _ Hwf) as (Hrx & Hecho & Hsz).
  assert (Hlt : (2 ≤ length data < length (rx_mbuf s))%nat)
    by (rewrite Hrx; unfold capacity in *; lia).
  assert (Hilt : (length item < length (echo_mbuf s))%nat)
    by (rewrite Hecho; unfold capacity in *; lia).
  eexists _, _, _, _.
  split; [apply handle_rx_run; lia|].
  split; [apply echoTask_body_run; done|].
  split; [apply echoTask_body_run; done|].
  split; [apply handle_rx_run; cbn [rx_mbuf]; lia|].
  cbn [rx_mbuf echo_mbuf cdc_dev env trace].
  split_and!; [done..| |].
  - unfold tx_payloads. rewrite !omap_app.
    destruct (decide (ESP_OK ≠ send_ret)), (decide (ESP_OK ≠ tx_ret e));
      simpl; by rewrite ?app_nil_r.
  - apply perm_swap_tail.
Qed.

Lemma handle_rx_echoTask_commute_witness :
  wf_state 63 (initial_state 63) ∧
  (2 ≤ length (bytes "OK" ++ [CR; LF]) ≤ capacity 63 - 1)%nat ∧
  (length (bytes "AT" ++ [CR]) ≤ capacity 63 - 1)%nat ∧
  ∃ s12 s21 : state,
    rx_mbuf s12 = rx_mbuf s21 ∧ echo_mbuf s12 = echo_mbuf s21 ∧
    tx_payloads (trace s12) = [bytes "AT" ++ [CR]] ∧
    trace s12 ≡ₚ trace s21.
Proof.
  assert (Hwf : wf_state 63 (initial_state 63))
    by (apply wf_initial_state; reflexivity).
  assert (Hlen : (2 ≤ length (bytes "OK" ++ [CR; LF]) ≤ capacity 63 - 1)%nat)
    by (vm_compute; lia).
  assert (Hfit : (length (bytes "AT" ++ [CR]) ≤ capacity 63 - 1)%nat)
    by (vm_compute; lia).
  split; [exact Hwf|]. split; [exact Hlen|]. split; [exact Hfit|].
  destruct (handle_rx_echoTask_commute 63 ESP_OK (bytes "OK" ++ [CR; LF])
              (mk_echo_env true (Some (bytes "AT" ++ [CR])) ESP_OK)
              (bytes "AT" ++ [CR]) (initial_state 63)
              Hwf Hlen eq_refl eq_refl Hfit)
    as (s1 & s12 & s2 & s21 & Hr1 & Hr12 & _ & _ & Hrx & Hecho & _ & _ & Htx & Hperm).
  exists s12, s21. split; [exact Hrx|]. split; [exact Hecho|].
  split; [|exact Hperm].
  assert (Hs1 : s1 = outcome_state
            (handle_rx ESP_OK (bytes "OK" ++ [CR; LF]) (initial_state 63)))
    by (rewrite Hr1; reflexivity).
  rewrite Hs1 in Hr12.
  assert (Hs12 : s12 = outcome_state
            (echoTask_body (mk_echo_env true (Some (bytes "AT" ++ [CR])) ESP_OK)
               (outcome_state
                  (handle_rx ESP_OK (bytes "OK" ++ [CR; LF]) (initial_state 63)))))
    by (rewrite Hr12; reflexivity).
  rewrite Hs12. vm_compute. reflexivity.
Defined.
